(** * FSLeyes interaction profiles: the tables of [fsleyes/profiles/profilemap.py]

    The module [profilemap] holds five dictionaries: [profiles],
    [profileHandlers], [tempModeMap], [altHandlerMap] and
    [fallbackHandlerMap].  They are embedded below entry by entry, in the
    order of the source, as association lists (the inner dictionaries are
    [OrderedDict]s built from tuples of pairs).  The dispatcher that reads
    them ([Profile] and [ProfileManager]) is described in sections 4.1-4.3
    of the specification and is modelled after the tables. *)

From Stdlib Require Import List String Bool Sorted.
Import ListNotations.
Local Open Scope string_scope.
Local Open Scope list_scope.

(** ** Dictionaries

    A Python dictionary written as a literal, or an [OrderedDict] built
    from a sequence of pairs, is the list of its pairs in source order.
    When a key is written twice the later pair wins, so [dict_get] returns
    the value of the last pair with the key. *)

Section Dict.

Context {K V : Type}.
Variable eqb : K -> K -> bool.
Hypothesis eqb_eq : forall a b, eqb a b = true <-> a = b.

Fixpoint dict_get (d : list (K * V)) (k : K) : option V :=
  match d with
  | [] => None
  | (k', v) :: d' =>
      match dict_get d' k with
      | Some w => Some w
      | None => if eqb k k' then Some v else None
      end
  end.

Definition dict_mem (d : list (K * V)) (k : K) : bool :=
  match dict_get d k with Some _ => true | None => false end.

Definition dict_keys (d : list (K * V)) : list K := map fst d.

Lemma dict_get_In d k v : dict_get d k = Some v -> In (k, v) d.
Proof.
  induction d as [|[k' w] d IH]; simpl; [discriminate|].
  destruct (dict_get d k) as [u|] eqn:E.
  - intros H; inversion H; subst. right. now apply IH.
  - destruct (eqb k k') eqn:Ek; [|discriminate].
    intros H; inversion H; subst. apply eqb_eq in Ek. subst. now left.
Qed.

Lemma dict_get_None d k : dict_get d k = None <-> ~ In k (dict_keys d).
Proof.
  induction d as [|[k' w] d IH]; simpl.
  - split; [intros _ []|reflexivity].
  - destruct (dict_get d k) as [u|] eqn:E.
    + split; [discriminate|].
      intros H. exfalso. apply H. right.
      apply dict_get_In in E. change k with (fst (k, u)). now apply in_map.
    + destruct (eqb k k') eqn:Ek.
      * split; [discriminate|]. apply eqb_eq in Ek. subst.
        intros H. exfalso. apply H. now left.
      * split; [|reflexivity]. intros _ [H|H].
        -- subst k'. assert (eqb k k = true) by now apply eqb_eq. congruence.
        -- now apply IH in H.
Qed.

Lemma dict_get_Some_key d k : (exists v, dict_get d k = Some v) <-> In k (dict_keys d).
Proof.
  destruct (dict_get d k) as [v|] eqn:E.
  - split; [|now exists v]. intros _.
    apply dict_get_In in E. change k with (fst (k, v)). now apply in_map.
  - split.
    + intros [v Hv]. discriminate.
    + intros H. now apply dict_get_None in E.
Qed.

(** With every key written once, the entry and the lookup agree. *)
Lemma dict_get_unique d k v :
  NoDup (dict_keys d) -> In (k, v) d -> dict_get d k = Some v.
Proof.
  induction d as [|[k' w] d IH]; simpl; [intros _ []|].
  intros Hnd Hin. inversion Hnd as [|? ? Hnotin Hnd']; subst.
  destruct Hin as [Heq|Hin].
  - inversion Heq; subst.
    apply dict_get_None in Hnotin. rewrite Hnotin.
    assert (eqb k k = true) as -> by now apply eqb_eq. reflexivity.
  - now rewrite (IH Hnd' Hin).
Qed.

End Dict.

(** ** The classes the module imports *)

(** The view panel classes, keys of [profiles]. *)
Inductive ViewType : Type :=
| OrthoPanel
| LightBoxPanel
| TimeSeriesPanel
| HistogramPanel
| PowerSpectrumPanel
| Scene3DPanel.

(** The profile classes, values of [profileHandlers] and keys of the
    three handler maps. *)
Inductive ProfileClass : Type :=
| OrthoViewProfile
| OrthoEditProfile
| OrthoCropProfile
| OrthoAnnotateProfile
| LightBoxViewProfile
| PlotProfile
| HistogramProfile
| TimeSeriesProfile
| Scene3DViewProfile.

(** The three modifier keys the tables name, [wx.WXK_ALT],
    [wx.WXK_CONTROL] and [wx.WXK_SHIFT]. *)
Inductive ModKey : Type :=
| WXK_ALT
| WXK_CONTROL
| WXK_SHIFT.

(** The modifier part of a [tempModeMap] key: one key identifier, or a
    tuple of them for a multi-key combination. *)
Inductive Modifier : Type :=
| Key (k : ModKey)
| Keys (ks : list ModKey).

Definition Mode : Type := string.
Definition InputEvent : Type := string.

(** A redirect entry maps (Mode, InputEvent) to (Mode, InputEvent). *)
Definition ModeEvent : Type := (Mode * InputEvent)%type.

(** *** Key equality *)

Definition ViewType_eqb (a b : ViewType) : bool :=
  match a, b with
  | OrthoPanel, OrthoPanel
  | LightBoxPanel, LightBoxPanel
  | TimeSeriesPanel, TimeSeriesPanel
  | HistogramPanel, HistogramPanel
  | PowerSpectrumPanel, PowerSpectrumPanel
  | Scene3DPanel, Scene3DPanel => true
  | _, _ => false
  end.

Definition ProfileClass_eqb (a b : ProfileClass) : bool :=
  match a, b with
  | OrthoViewProfile, OrthoViewProfile
  | OrthoEditProfile, OrthoEditProfile
  | OrthoCropProfile, OrthoCropProfile
  | OrthoAnnotateProfile, OrthoAnnotateProfile
  | LightBoxViewProfile, LightBoxViewProfile
  | PlotProfile, PlotProfile
  | HistogramProfile, HistogramProfile
  | TimeSeriesProfile, TimeSeriesProfile
  | Scene3DViewProfile, Scene3DViewProfile => true
  | _, _ => false
  end.

Definition ModKey_eqb (a b : ModKey) : bool :=
  match a, b with
  | WXK_ALT, WXK_ALT | WXK_CONTROL, WXK_CONTROL | WXK_SHIFT, WXK_SHIFT => true
  | _, _ => false
  end.

Fixpoint ModKeys_eqb (l1 l2 : list ModKey) : bool :=
  match l1, l2 with
  | [], [] => true
  | a :: l1', b :: l2' => ModKey_eqb a b && ModKeys_eqb l1' l2'
  | _, _ => false
  end.

(** In Python an integer never equals a tuple. *)
Definition Modifier_eqb (a b : Modifier) : bool :=
  match a, b with
  | Key x, Key y => ModKey_eqb x y
  | Keys xs, Keys ys => ModKeys_eqb xs ys
  | _, _ => false
  end.

Definition pair_eqb {A B : Type} (ea : A -> A -> bool) (eb : B -> B -> bool)
  (p q : A * B) : bool :=
  ea (fst p) (fst q) && eb (snd p) (snd q).

Definition ModeEvent_eqb : ModeEvent -> ModeEvent -> bool :=
  pair_eqb String.eqb String.eqb.

Definition TempKey : Type := (Mode * Modifier)%type.

Definition TempKey_eqb : TempKey -> TempKey -> bool :=
  pair_eqb String.eqb Modifier_eqb.

Definition HandlerKey : Type := (ViewType * string)%type.

Definition HandlerKey_eqb : HandlerKey -> HandlerKey -> bool :=
  pair_eqb ViewType_eqb String.eqb.

Lemma ViewType_eqb_eq a b : ViewType_eqb a b = true <-> a = b.
Proof. destruct a, b; simpl; split; congruence. Qed.

Lemma ProfileClass_eqb_eq a b : ProfileClass_eqb a b = true <-> a = b.
Proof. destruct a, b; simpl; split; congruence. Qed.

Lemma ModKey_eqb_eq a b : ModKey_eqb a b = true <-> a = b.
Proof. destruct a, b; simpl; split; congruence. Qed.

Lemma ModKeys_eqb_eq l1 l2 : ModKeys_eqb l1 l2 = true <-> l1 = l2.
Proof.
  revert l2. induction l1 as [|a l1 IH]; intros [|b l2]; simpl;
    try (split; congruence).
  rewrite andb_true_iff, ModKey_eqb_eq, IH. split.
  - intros [-> ->]. reflexivity.
  - intros H. inversion H. auto.
Qed.

Lemma Modifier_eqb_eq a b : Modifier_eqb a b = true <-> a = b.
Proof.
  destruct a as [x|xs], b as [y|ys]; simpl; try (split; congruence).
  - rewrite ModKey_eqb_eq. split; congruence.
  - rewrite ModKeys_eqb_eq. split; congruence.
Qed.

Lemma pair_eqb_eq {A B : Type} (ea : A -> A -> bool) (eb : B -> B -> bool) :
  (forall a a', ea a a' = true <-> a = a') ->
  (forall b b', eb b b' = true <-> b = b') ->
  forall p q, pair_eqb ea eb p q = true <-> p = q.
Proof.
  intros Ha Hb [a b] [a' b']. unfold pair_eqb. simpl.
  rewrite andb_true_iff, Ha, Hb. split.
  - intros [-> ->]. reflexivity.
  - intros H. inversion H. auto.
Qed.

Lemma ModeEvent_eqb_eq p q : ModeEvent_eqb p q = true <-> p = q.
Proof. apply pair_eqb_eq; apply String.eqb_eq. Qed.

Lemma TempKey_eqb_eq p q : TempKey_eqb p q = true <-> p = q.
Proof. apply pair_eqb_eq; [apply String.eqb_eq|apply Modifier_eqb_eq]. Qed.

Lemma HandlerKey_eqb_eq p q : HandlerKey_eqb p q = true <-> p = q.
Proof. apply pair_eqb_eq; [apply ViewType_eqb_eq|apply String.eqb_eq]. Qed.

(** ** The tables of [profilemap.py] *)

(** [profiles]: the profile names available for each view panel class. *)
Definition profiles : list (ViewType * list string) :=
  [ (OrthoPanel, ["view"; "edit"; "crop"; "annotate"])
  ; (LightBoxPanel, ["view"])
  ; (TimeSeriesPanel, ["view"])
  ; (HistogramPanel, ["view"])
  ; (PowerSpectrumPanel, ["view"])
  ; (Scene3DPanel, ["view"])
  ].

(** [profileHandlers]: the profile class to create for a view panel class
    and a profile name. *)
Definition profileHandlers : list (HandlerKey * ProfileClass) :=
  [ ((OrthoPanel, "view"), OrthoViewProfile)
  ; ((OrthoPanel, "edit"), OrthoEditProfile)
  ; ((OrthoPanel, "crop"), OrthoCropProfile)
  ; ((OrthoPanel, "annotate"), OrthoAnnotateProfile)
  ; ((LightBoxPanel, "view"), LightBoxViewProfile)
  ; ((TimeSeriesPanel, "view"), TimeSeriesProfile)
  ; ((HistogramPanel, "view"), HistogramProfile)
  ; ((PowerSpectrumPanel, "view"), PlotProfile)
  ; ((Scene3DPanel, "view"), Scene3DViewProfile)
  ].

(** [tempModeMap]: per profile class, (mode, modifier) to temporary mode. *)
Definition tempModeMap_OrthoViewProfile : list (TempKey * Mode) :=
  [ (("nav", Key WXK_CONTROL), "zoom")
  ; (("nav", Key WXK_ALT), "pan")
  ; (("nav", Key WXK_SHIFT), "slice")
  ; (("nav", Keys [WXK_CONTROL; WXK_SHIFT]), "bricon")
  ].

Definition tempModeMap_OrthoEditProfile : list (TempKey * Mode) :=
  [ (("sel", Key WXK_SHIFT), "slice")
  ; (("desel", Key WXK_SHIFT), "slice")
  ; (("selint", Key WXK_SHIFT), "slice")
  ; (("fill", Key WXK_SHIFT), "slice")
  ; (("sel", Key WXK_ALT), "pan")
  ; (("desel", Key WXK_ALT), "pan")
  ; (("selint", Key WXK_ALT), "pan")
  ; (("fill", Key WXK_ALT), "pan")
  ; (("sel", Key WXK_CONTROL), "zoom")
  ; (("desel", Key WXK_CONTROL), "zoom")
  ; (("selint", Key WXK_CONTROL), "zoom")
  ; (("fill", Key WXK_CONTROL), "zoom")
  ; (("sel", Keys [WXK_CONTROL; WXK_SHIFT]), "chsize")
  ; (("desel", Keys [WXK_CONTROL; WXK_SHIFT]), "chsize")
  ; (("selint", Keys [WXK_CONTROL; WXK_SHIFT]), "chthres")
  ; (("selint", Keys [WXK_ALT; WXK_SHIFT]), "chrad")
  ].

Definition tempModeMap_OrthoCropProfile : list (TempKey * Mode) :=
  [ (("crop", Key WXK_SHIFT), "nav")
  ; (("crop", Key WXK_CONTROL), "zoom")
  ; (("crop", Key WXK_ALT), "pan")
  ; (("crop", Keys [WXK_CONTROL; WXK_SHIFT]), "slice")
  ].

Definition tempModeMap_OrthoAnnotateProfile : list (TempKey * Mode) :=
  [ (("line", Key WXK_SHIFT), "nav")
  ; (("line", Key WXK_CONTROL), "zoom")
  ; (("line", Key WXK_ALT), "pan")
  ; (("line", Keys [WXK_CONTROL; WXK_SHIFT]), "slice")
  ; (("point", Key WXK_SHIFT), "nav")
  ; (("point", Key WXK_CONTROL), "zoom")
  ; (("point", Key WXK_ALT), "pan")
  ; (("point", Keys [WXK_CONTROL; WXK_SHIFT]), "slice")
  ; (("rect", Key WXK_SHIFT), "nav")
  ; (("rect", Key WXK_CONTROL), "zoom")
  ; (("rect", Key WXK_ALT), "pan")
  ; (("rect", Keys [WXK_CONTROL; WXK_SHIFT]), "slice")
  ; (("text", Key WXK_SHIFT), "nav")
  ; (("text", Key WXK_CONTROL), "zoom")
  ; (("text", Key WXK_ALT), "pan")
  ; (("text", Keys [WXK_CONTROL; WXK_SHIFT]), "slice")
  ; (("ellipse", Key WXK_SHIFT), "nav")
  ; (("ellipse", Key WXK_CONTROL), "zoom")
  ; (("ellipse", Key WXK_ALT), "pan")
  ; (("ellipse", Keys [WXK_CONTROL; WXK_SHIFT]), "slice")
  ; (("arrow", Key WXK_SHIFT), "nav")
  ; (("arrow", Key WXK_CONTROL), "zoom")
  ; (("arrow", Key WXK_ALT), "pan")
  ; (("arrow", Keys [WXK_CONTROL; WXK_SHIFT]), "slice")
  ].

Definition tempModeMap_LightBoxViewProfile : list (TempKey * Mode) :=
  [ (("view", Key WXK_CONTROL), "zoom")
  ].

Definition tempModeMap_TimeSeriesProfile : list (TempKey * Mode) :=
  [ (("panzoom", Key WXK_CONTROL), "volume")
  ].

Definition tempModeMap_HistogramProfile : list (TempKey * Mode) :=
  [ (("panzoom", Key WXK_CONTROL), "overlayRange")
  ].

Definition tempModeMap_Scene3DViewProfile : list (TempKey * Mode) :=
  [ (("rotate", Key WXK_CONTROL), "zoom")
  ; (("rotate", Key WXK_ALT), "pan")
  ; (("rotate", Key WXK_SHIFT), "pick")
  ].

Definition tempModeMap : list (ProfileClass * list (TempKey * Mode)) :=
  [ (OrthoViewProfile, tempModeMap_OrthoViewProfile)
  ; (OrthoEditProfile, tempModeMap_OrthoEditProfile)
  ; (OrthoCropProfile, tempModeMap_OrthoCropProfile)
  ; (OrthoAnnotateProfile, tempModeMap_OrthoAnnotateProfile)
  ; (LightBoxViewProfile, tempModeMap_LightBoxViewProfile)
  ; (TimeSeriesProfile, tempModeMap_TimeSeriesProfile)
  ; (HistogramProfile, tempModeMap_HistogramProfile)
  ; (Scene3DViewProfile, tempModeMap_Scene3DViewProfile)
  ].

(** [altHandlerMap]: per profile class, (mode, event) to the (mode, event)
    whose handler is used instead. *)
Definition altHandlerMap_OrthoViewProfile : list (ModeEvent * ModeEvent) :=
  [ (("nav", "LeftMouseDown"), ("nav", "LeftMouseDrag"))
  ; (("nav", "MiddleMouseDrag"), ("pan", "LeftMouseDrag"))
  ; (("nav", "RightMouseDown"), ("zoom", "RightMouseDown"))
  ; (("nav", "RightMouseDrag"), ("zoom", "RightMouseDrag"))
  ; (("nav", "RightMouseUp"), ("zoom", "RightMouseUp"))
  ; (("slice", "LeftMouseDown"), ("pick", "LeftMouseDown"))
  ; (("slice", "LeftMouseDrag"), ("pick", "LeftMouseDrag"))
  ; (("slice", "MiddleMouseDrag"), ("pan", "LeftMouseDrag"))
  ; (("slice", "RightMouseDown"), ("zoom", "RightMouseDown"))
  ; (("slice", "RightMouseDrag"), ("zoom", "RightMouseDrag"))
  ; (("slice", "RightMouseUp"), ("zoom", "RightMouseUp"))
  ; (("zoom", "RightMouseDown"), ("zoom", "RightMouseDrag"))
  ; (("zoom", "LeftMouseDown"), ("nav", "LeftMouseDown"))
  ; (("zoom", "LeftMouseDrag"), ("nav", "LeftMouseDrag"))
  ; (("zoom", "MiddleMouseDrag"), ("pan", "LeftMouseDrag"))
  ; (("pick", "LeftMouseDown"), ("pick", "LeftMouseDrag"))
  ].

Definition altHandlerMap_OrthoEditProfile : list (ModeEvent * ModeEvent) :=
  [ (("sel", "Char"), ("nav", "Char"))
  ; (("desel", "Char"), ("nav", "Char"))
  ; (("selint", "Char"), ("nav", "Char"))
  ; (("fill", "Char"), ("nav", "Char"))
  ; (("sel", "RightMouseDown"), ("desel", "LeftMouseDown"))
  ; (("sel", "RightMouseDrag"), ("desel", "LeftMouseDrag"))
  ; (("sel", "RightMouseUp"), ("desel", "LeftMouseUp"))
  ; (("desel", "RightMouseDown"), ("sel", "LeftMouseDown"))
  ; (("desel", "RightMouseDrag"), ("sel", "LeftMouseDrag"))
  ; (("desel", "RightMouseUp"), ("sel", "LeftMouseUp"))
  ; (("fill", "RightMouseDown"), ("desel", "LeftMouseDown"))
  ; (("fill", "RightMouseDrag"), ("desel", "LeftMouseDrag"))
  ; (("fill", "RightMouseUp"), ("desel", "LeftMouseUp"))
  ; (("selint", "RightMouseDown"), ("desel", "LeftMouseDown"))
  ; (("selint", "RightMouseDrag"), ("desel", "LeftMouseDrag"))
  ; (("selint", "RightMouseUp"), ("desel", "LeftMouseUp"))
  ; (("desel", "MouseMove"), ("sel", "MouseMove"))
  ; (("sel", "MiddleMouseDrag"), ("pan", "LeftMouseDrag"))
  ; (("desel", "MiddleMouseDrag"), ("pan", "LeftMouseDrag"))
  ; (("selint", "MiddleMouseDrag"), ("pan", "LeftMouseDrag"))
  ].

Definition altHandlerMap_OrthoCropProfile : list (ModeEvent * ModeEvent) :=
  [ (("crop", "MiddleMouseDrag"), ("pan", "LeftMouseDrag"))
  ].

Definition altHandlerMap_OrthoAnnotateProfile : list (ModeEvent * ModeEvent) :=
  [ (("line", "MiddleMouseDrag"), ("pan", "LeftMouseDrag"))
  ; (("point", "MiddleMouseDrag"), ("pan", "LeftMouseDrag"))
  ; (("rect", "MiddleMouseDrag"), ("pan", "LeftMouseDrag"))
  ; (("text", "MiddleMouseDrag"), ("pan", "LeftMouseDrag"))
  ; (("arrow", "MiddleMouseDrag"), ("pan", "LeftMouseDrag"))
  ; (("ellipse", "MiddleMouseDrag"), ("pan", "LeftMouseDrag"))
  ; (("line", "RightMouseDown"), ("move", "RightMouseDown"))
  ; (("point", "RightMouseDown"), ("move", "RightMouseDown"))
  ; (("rect", "RightMouseDown"), ("move", "RightMouseDown"))
  ; (("text", "RightMouseDown"), ("move", "RightMouseDown"))
  ; (("arrow", "RightMouseDown"), ("move", "RightMouseDown"))
  ; (("ellipse", "RightMouseDown"), ("move", "RightMouseDown"))
  ; (("line", "RightMouseDrag"), ("move", "RightMouseDrag"))
  ; (("point", "RightMouseDrag"), ("move", "RightMouseDrag"))
  ; (("rect", "RightMouseDrag"), ("move", "RightMouseDrag"))
  ; (("text", "RightMouseDrag"), ("move", "RightMouseDrag"))
  ; (("arrow", "RightMouseDrag"), ("move", "RightMouseDrag"))
  ; (("ellipse", "RightMouseDrag"), ("move", "RightMouseDrag"))
  ; (("line", "RightMouseUp"), ("move", "RightMouseUp"))
  ; (("point", "RightMouseUp"), ("move", "RightMouseUp"))
  ; (("rect", "RightMouseUp"), ("move", "RightMouseUp"))
  ; (("text", "RightMouseUp"), ("move", "RightMouseUp"))
  ; (("arrow", "RightMouseUp"), ("move", "RightMouseUp"))
  ; (("ellipse", "RightMouseUp"), ("move", "RightMouseUp"))
  ].

Definition altHandlerMap_LightBoxViewProfile : list (ModeEvent * ModeEvent) :=
  [ (("view", "LeftMouseDown"), ("view", "LeftMouseDrag"))
  ].

Definition altHandlerMap_Scene3DViewProfile : list (ModeEvent * ModeEvent) :=
  [ (("rotate", "MiddleMouseDown"), ("pan", "LeftMouseDown"))
  ; (("rotate", "MiddleMouseDrag"), ("pan", "LeftMouseDrag"))
  ; (("rotate", "MiddleMouseUp"), ("pan", "LeftMouseUp"))
  ].

Definition altHandlerMap : list (ProfileClass * list (ModeEvent * ModeEvent)) :=
  [ (OrthoViewProfile, altHandlerMap_OrthoViewProfile)
  ; (OrthoEditProfile, altHandlerMap_OrthoEditProfile)
  ; (OrthoCropProfile, altHandlerMap_OrthoCropProfile)
  ; (OrthoAnnotateProfile, altHandlerMap_OrthoAnnotateProfile)
  ; (LightBoxViewProfile, altHandlerMap_LightBoxViewProfile)
  ; (Scene3DViewProfile, altHandlerMap_Scene3DViewProfile)
  ].

(** [fallbackHandlerMap]: per profile class, (mode, event) to the (mode,
    event) whose handler is called when the first one returns [False]. *)
Definition fallbackHandlerMap_OrthoViewProfile : list (ModeEvent * ModeEvent) :=
  [ (("pick", "LeftMouseDown"), ("nav", "LeftMouseDown"))
  ; (("pick", "LeftMouseDrag"), ("nav", "LeftMouseDrag"))
  ].

Definition fallbackHandlerMap : list (ProfileClass * list (ModeEvent * ModeEvent)) :=
  [ (OrthoViewProfile, fallbackHandlerMap_OrthoViewProfile)
  ].

(** ** Modifier key identifiers and their order

    The source asks for multi-key combinations "as a tuple, in
    alphabetical order" of the key identifiers, with
    [(wx.WXK_CTRL, wx.WXK_SHIFT)] as its example.  [key_name] is the
    identifier as the source spells it and [key_ltb] compares two
    identifiers as strings. *)

Definition key_name (k : ModKey) : string :=
  match k with
  | WXK_ALT => "WXK_ALT"
  | WXK_CONTROL => "WXK_CONTROL"
  | WXK_SHIFT => "WXK_SHIFT"
  end.

Definition key_ltb (a b : ModKey) : bool := String.ltb (key_name a) (key_name b).

Definition key_lt (a b : ModKey) : Prop := key_ltb a b = true.

(** ** Canonical modifier key sets *)

Section Canonical.

Context {A : Type}.
Variable ltb : A -> A -> bool.

Definition lt_of (a b : A) : Prop := ltb a b = true.

(** Modelled from the spec: the canonicalization of a ModifierKeySet is
    not in the repository's files; the spec's data model calls the result
    "an ordered, deduplicated set of modifier key identifiers ...
    canonically sorted", "sorted ascending by key identifier".
    [insert_key] puts one identifier at its place in an ascending list
    and drops it when it is already there. *)
Fixpoint insert_key (x : A) (l : list A) : list A :=
  match l with
  | [] => [x]
  | y :: l' =>
      if ltb x y then x :: l
      else if ltb y x then y :: insert_key x l'
      else l
  end.

(** Modelled from the spec: canonicalization of a ModifierKeySet (see
    [insert_key]): the held identifiers, in any order and with
    repetitions, become the ascending list without repetition. *)
Definition canonicalize (s : list A) : list A := fold_right insert_key [] s.

End Canonical.

Definition canonicalizeKeys : list ModKey -> list ModKey := canonicalize key_ltb.

(** ** Temporary mode resolution (specification, section 4.2) *)

(** A profile class without an entry in a map has no entries of its own. *)
Definition tempModes (P : ProfileClass) : list (TempKey * Mode) :=
  match dict_get ProfileClass_eqb tempModeMap P with Some d => d | None => [] end.

Definition altHandlers (P : ProfileClass) : list (ModeEvent * ModeEvent) :=
  match dict_get ProfileClass_eqb altHandlerMap P with Some d => d | None => [] end.

Definition fallbackHandlers (P : ProfileClass) : list (ModeEvent * ModeEvent) :=
  match dict_get ProfileClass_eqb fallbackHandlerMap P with Some d => d | None => [] end.

(** The modifier part of the lookup key for a canonical key set, in the
    shape the table's keys have: a lone identifier is written bare, a
    combination as a tuple; with no key held there is nothing to look up. *)
Definition modifierOf (held : list ModKey) : option Modifier :=
  match held with
  | [] => None
  | [k] => Some (Key k)
  | _ => Some (Keys held)
  end.

(** Modelled from the spec: temporary mode resolution (the [Profile]
    class is not in the repository's files).  Section 4.2: "Output: either
    an OverrideMode (if an exact match exists in the temporary-mode map
    for that handler type) or no override"; "exact match only". *)
Definition getTempMode (P : ProfileClass) (base : Mode) (held : list ModKey)
  : option Mode :=
  match modifierOf (canonicalizeKeys held) with
  | None => None
  | Some m => dict_get TempKey_eqb (tempModes P) (base, m)
  end.

(** Modelled from the spec: the effective mode of section 4.3, step 1;
    "no override" "falls through to BaseMode". *)
Definition effectiveMode (P : ProfileClass) (base : Mode) (held : list ModKey)
  : Mode :=
  match getTempMode P base held with
  | Some override => override
  | None => base
  end.

(** ** Mode resolution (specification, section 4.1) *)

(** [profileHandlers[(viewType, name)]]: the handler class, or nothing
    ("not found") when the pair is not a key. *)
Definition resolveHandler (vt : ViewType) (name : string) : option ProfileClass :=
  dict_get HandlerKey_eqb profileHandlers (vt, name).

(** ** Event dispatch (specification, section 4.3) *)

Inductive Outcome : Type :=
| Handled
| Unhandled
| ConfigurationError.

Section Dispatch.

(** The mutable state of the handler object and its owner. *)
Variable St : Type.

(** A handler method: it may change the state and returns the "handled"
    signal. *)
Definition Method : Type := St -> bool * St.

(** The handler's method set: the method registered for a mode and an
    input event, when there is one. *)
Variable methods : Mode -> InputEvent -> option Method.

(** A dispatch step threads the state and records which methods it
    invoked, in order. *)
Definition Disp (R : Type) : Type := St -> R * list ModeEvent * St.

Definition ret {R : Type} (r : R) : Disp R := fun s => (r, [], s).

Definition bind {R Q : Type} (c : Disp R) (k : R -> Disp Q) : Disp Q :=
  fun s =>
    let '(r, log1, s1) := c s in
    let '(q, log2, s2) := k r s1 in
    (q, log1 ++ log2, s2).

Definition outcome {R : Type} (x : R * list ModeEvent * St) : R := fst (fst x).
Definition invoked {R : Type} (x : R * list ModeEvent * St) : list ModeEvent := snd (fst x).
Definition final {R : Type} (x : R * list ModeEvent * St) : St := snd x.

(** Invoke the method registered for [(m, e)]; [None] when the handler
    has no such method (then nothing is invoked). *)
Definition invoke (m : Mode) (e : InputEvent) : Disp (option bool) :=
  match methods m e with
  | None => ret None
  | Some f => fun s => let '(handled, s') := f s in (Some handled, [(m, e)], s')
  end.

(** Modelled from the spec: steps 2 and 3 of section 4.3 (the dispatcher
    is not in the repository's files): the pair whose method handles
    (Mode, InputEvent) first, the target of the alternate entry when
    there is one and the literal pair otherwise. *)
Definition resolveTarget (P : ProfileClass) (mode : Mode) (ev : InputEvent)
  : ModeEvent :=
  match dict_get ModeEvent_eqb (altHandlers P) (mode, ev) with
  | Some target => target
  | None => (mode, ev)
  end.

(** Modelled from the spec: step 5 of section 4.3 (the dispatcher is not
    in the repository's files): "consult the fallback-handler map for
    (Mode, InputEvent); if present, redirect and invoke that handler
    instead.  If that also declines, or no fallback exists, the event is
    considered unhandled".  A fallback target without a method is the
    spec's ConfigurationError. *)
Definition fallback (P : ProfileClass) (mode : Mode) (ev : InputEvent)
  : Disp Outcome :=
  match dict_get ModeEvent_eqb (fallbackHandlers P) (mode, ev) with
  | None => ret Unhandled
  | Some (fm, fe) =>
      bind (invoke fm fe) (fun r =>
        match r with
        | Some true => ret Handled
        | Some false => ret Unhandled
        | None => ret ConfigurationError
        end)
  end.

(** Modelled from the spec: steps 2-5 of section 4.3 (the dispatcher is
    not in the repository's files).  An alternate entry for (Mode,
    InputEvent) redirects to "the handler method registered for
    TargetMode/TargetInputEvent", one hop; without one, "the handler
    method natively registered under (Mode, InputEvent)" is used, and a
    pair without a method counts as declined.  A redirect target without
    a method is the spec's ConfigurationError. *)
Definition dispatch (P : ProfileClass) (mode : Mode) (ev : InputEvent)
  : Disp Outcome :=
  match dict_get ModeEvent_eqb (altHandlers P) (mode, ev) with
  | Some (tm, te) =>
      bind (invoke tm te) (fun r =>
        match r with
        | Some true => ret Handled
        | Some false => fallback P mode ev
        | None => ret ConfigurationError
        end)
  | None =>
      bind (invoke mode ev) (fun r =>
        match r with
        | Some true => ret Handled
        | _ => fallback P mode ev
        end)
  end.

(** Modelled from the spec: section 4.3 as a whole; step 1 computes the
    effective mode from the base mode and the held modifier keys. *)
Definition dispatchEvent (P : ProfileClass) (base : Mode) (held : list ModKey)
  (ev : InputEvent) : Disp Outcome :=
  dispatch P (effectiveMode P base held) ev.

(** Modelled from the spec: the startup validation of sections 4.3 and 7,
    "a redirect target that does not exist in the handler's own method
    set is a configuration error". *)
Definition hasMethod (t : ModeEvent) : bool :=
  match methods (fst t) (snd t) with Some _ => true | None => false end.

Definition validRedirects (P : ProfileClass) : bool :=
  forallb (fun entry => hasMethod (snd entry)) (altHandlers P)
  && forallb (fun entry => hasMethod (snd entry)) (fallbackHandlers P).

End Dispatch.

Arguments ret {St R} r.
Arguments bind {St R Q} c k.
Arguments outcome {St R} x.
Arguments invoked {St R} x.
Arguments final {St R} x.

(** ** Decision procedures over the tables *)

(** An ascending list, decided: each element is below its successor. *)
Fixpoint ascendingb {A : Type} (ltb : A -> A -> bool) (l : list A) : bool :=
  match l with
  | [] => true
  | x :: l' =>
      match l' with
      | [] => true
      | y :: _ => ltb x y && ascendingb ltb l'
      end
  end.

(** No key of a dictionary literal is written twice. *)
Fixpoint distinctb {A : Type} (eqb : A -> A -> bool) (l : list A) : bool :=
  match l with
  | [] => true
  | x :: l' => negb (existsb (eqb x) l') && distinctb eqb l'
  end.

(** The tuple of a multi-key entry of [tempModeMap] is ascending. *)
Definition tupleAscending (entry : TempKey * Mode) : bool :=
  match snd (fst entry) with
  | Key _ => true
  | Keys ks => ascendingb key_ltb ks
  end.

(** The temporary mode of an entry differs from the mode it overrides. *)
Definition overrideDiffers (entry : TempKey * Mode) : bool :=
  negb (String.eqb (fst (fst entry)) (snd entry)).

(** The redirect chain that starts at an entry of [d] ends after at most
    two hops; [strict] asks for one hop. *)
Definition chainBounded (strict : bool) (d : list (ModeEvent * ModeEvent))
  (entry : ModeEvent * ModeEvent) : bool :=
  match dict_get ModeEvent_eqb d (snd entry) with
  | None => true
  | Some t' => negb strict && negb (dict_mem ModeEvent_eqb d t')
  end.

(** The keys of [altHandlerMap[OrthoViewProfile]] whose target is a key
    of that map again. *)
Definition twoHopKeys : list ModeEvent :=
  [ ("nav", "RightMouseDown")
  ; ("slice", "LeftMouseDown")
  ; ("slice", "RightMouseDown")
  ; ("zoom", "LeftMouseDown")
  ].

Definition isTwoHop (P : ProfileClass) (k : ModeEvent) : bool :=
  ProfileClass_eqb P OrthoViewProfile && existsb (ModeEvent_eqb k) twoHopKeys.

Definition altChainsBounded (pd : ProfileClass * list (ModeEvent * ModeEvent)) : bool :=
  forallb
    (fun entry => chainBounded (negb (isTwoHop (fst pd) (fst entry))) (snd pd) entry)
    (snd pd).

(** Every profile name listed for a view panel class has a handler. *)
Definition namesResolve (entry : ViewType * list string) : bool :=
  forallb (fun name => dict_mem HandlerKey_eqb profileHandlers (fst entry, name))
    (snd entry).

(** A view panel class lists ['view'] and has a handler for it. *)
Definition viewAvailable (entry : ViewType * list string) : bool :=
  existsb (String.eqb "view") (snd entry)
  && dict_mem HandlerKey_eqb profileHandlers (fst entry, "view").

(** ** A small handler, to run the dispatcher on

    Its state counts; three methods are registered: zoom's
    RightMouseDown handles the event, pick's LeftMouseDrag declines it
    and nav's LeftMouseDown handles it. *)

Definition demoZoom : Method nat := fun n => (true, S n).
Definition demoPick : Method nat := fun n => (false, n).
Definition demoNav : Method nat := fun n => (true, n + 10).

Definition demoMethods (m : Mode) (e : InputEvent) : option (Method nat) :=
  if ModeEvent_eqb (m, e) ("zoom", "RightMouseDown") then Some demoZoom
  else if ModeEvent_eqb (m, e) ("pick", "LeftMouseDrag") then Some demoPick
  else if ModeEvent_eqb (m, e) ("nav", "LeftMouseDown") then Some demoNav
  else None.

(** * Properties *)

(** ** Canonicalization *)

Section CanonicalFacts.

Context {A : Type}.
Variable ltb : A -> A -> bool.
Hypothesis ltb_irrefl : forall a, ltb a a = false.
Hypothesis ltb_trans :
  forall a b c, ltb a b = true -> ltb b c = true -> ltb a c = true.
Hypothesis ltb_total : forall a b, ltb a b = false -> ltb b a = false -> a = b.

Local Abbreviation lt := (lt_of ltb).

Lemma insert_key_In x y l : In y (insert_key ltb x l) <-> y = x \/ In y l.
Proof.
  induction l as [|z l IH]; simpl.
  - intuition congruence.
  - destruct (ltb x z) eqn:E1; simpl.
    + intuition congruence.
    + destruct (ltb z x) eqn:E2; simpl.
      * rewrite IH. intuition congruence.
      * assert (x = z) by (apply ltb_total; assumption). subst.
        intuition congruence.
Qed.

Lemma insert_key_HdRel a x l :
  lt a x -> HdRel lt a l -> HdRel lt a (insert_key ltb x l).
Proof.
  intros Hax H. destruct l as [|z l]; simpl.
  - constructor. exact Hax.
  - inversion H; subst.
    destruct (ltb x z); [|destruct (ltb z x)]; constructor; assumption.
Qed.

Lemma insert_key_Sorted x l : Sorted lt l -> Sorted lt (insert_key ltb x l).
Proof.
  induction 1 as [|z l Hs IH Hhd]; simpl.
  - constructor; constructor.
  - destruct (ltb x z) eqn:E1.
    + constructor; [constructor; assumption|constructor; exact E1].
    + destruct (ltb z x) eqn:E2.
      * constructor; [exact IH|apply insert_key_HdRel; assumption].
      * constructor; assumption.
Qed.

Lemma canonicalize_Sorted s : Sorted lt (canonicalize ltb s).
Proof.
  induction s as [|x s IH]; simpl; [constructor|].
  apply insert_key_Sorted, IH.
Qed.

Lemma insert_key_below x l : HdRel lt x l -> insert_key ltb x l = x :: l.
Proof.
  intros [|z l' Hxz]; simpl; [reflexivity|].
  unfold lt_of in Hxz. rewrite Hxz. reflexivity.
Qed.

(** An ascending list is its own canonical form. *)
Lemma canonicalize_fixed l : Sorted lt l -> canonicalize ltb l = l.
Proof.
  induction 1 as [|x l Hs IH Hhd]; simpl; [reflexivity|].
  rewrite IH. apply insert_key_below, Hhd.
Qed.

Lemma canonicalize_idem s :
  canonicalize ltb (canonicalize ltb s) = canonicalize ltb s.
Proof. apply canonicalize_fixed, canonicalize_Sorted. Qed.

Lemma canonicalize_In x s : In x (canonicalize ltb s) <-> In x s.
Proof.
  induction s as [|y s IH]; simpl; [tauto|].
  rewrite insert_key_In, IH. intuition congruence.
Qed.

Lemma lt_of_transitive : Relations_1.Transitive lt.
Proof. intros a b c. apply ltb_trans. Qed.

Lemma Sorted_strongly l : Sorted lt l -> StronglySorted lt l.
Proof. apply Sorted_StronglySorted, lt_of_transitive. Qed.

Lemma StronglySorted_NoDup l : StronglySorted lt l -> NoDup l.
Proof.
  induction 1 as [|x l Hs IH Hall]; constructor; [|exact IH].
  intros Hin. rewrite Forall_forall in Hall.
  specialize (Hall _ Hin). unfold lt_of in Hall.
  rewrite ltb_irrefl in Hall. discriminate.
Qed.

Lemma canonicalize_NoDup s : NoDup (canonicalize ltb s).
Proof. apply StronglySorted_NoDup, Sorted_strongly, canonicalize_Sorted. Qed.

(** Two ascending lists with the same elements are the same list. *)
Lemma StronglySorted_ext l1 l2 :
  StronglySorted lt l1 -> StronglySorted lt l2 ->
  (forall x, In x l1 <-> In x l2) -> l1 = l2.
Proof.
  intros H1. revert l2.
  induction H1 as [|a l1 Hs1 IH Hall1]; intros l2 H2 Hext.
  - destruct l2 as [|b l2]; [reflexivity|].
    destruct (proj2 (Hext b) (or_introl eq_refl)).
  - destruct H2 as [|b l2 Hs2 Hall2].
    + destruct (proj1 (Hext a) (or_introl eq_refl)).
    + rewrite Forall_forall in Hall1, Hall2.
      assert (Hself : forall x, lt x x -> False).
      { intros x Hx. unfold lt_of in Hx. rewrite ltb_irrefl in Hx. discriminate. }
      assert (a = b) as <-.
      { destruct (proj1 (Hext a) (or_introl eq_refl)) as [E|Hin]; [now symmetry|].
        destruct (proj2 (Hext b) (or_introl eq_refl)) as [E|Hin']; [exact E|].
        exfalso. apply (Hself a).
        apply (ltb_trans a b a); [apply Hall1, Hin'|apply Hall2, Hin]. }
      f_equal. apply IH; [exact Hs2|].
      intros x. split; intros Hx.
      * destruct (proj1 (Hext x) (or_intror Hx)) as [E|Hin]; [|exact Hin].
        subst x. exfalso. apply (Hself a), Hall1, Hx.
      * destruct (proj2 (Hext x) (or_intror Hx)) as [E|Hin]; [|exact Hin].
        subst x. exfalso. apply (Hself a), Hall2, Hx.
Qed.

(** The canonical form depends on the set of held keys only. *)
Lemma canonicalize_ext s1 s2 :
  (forall x, In x s1 <-> In x s2) -> canonicalize ltb s1 = canonicalize ltb s2.
Proof.
  intros Hext.
  apply StronglySorted_ext; try apply Sorted_strongly, canonicalize_Sorted.
  intros x. rewrite !canonicalize_In. apply Hext.
Qed.

Lemma ascendingb_Sorted l : ascendingb ltb l = true -> Sorted lt l.
Proof.
  induction l as [|x l IH]; [constructor|].
  destruct l as [|y l]; simpl.
  - intros _. constructor; constructor.
  - intros H. apply andb_true_iff in H. destruct H as [Hxy Hrest].
    constructor; [apply IH, Hrest|constructor; exact Hxy].
Qed.

End CanonicalFacts.

(** The order of the identifiers is a strict total order. *)
Lemma key_ltb_irrefl a : key_ltb a a = false.
Proof. destruct a; reflexivity. Qed.

Lemma key_ltb_trans a b c :
  key_ltb a b = true -> key_ltb b c = true -> key_ltb a c = true.
Proof. destruct a, b, c; vm_compute; congruence. Qed.

Lemma key_ltb_total a b : key_ltb a b = false -> key_ltb b a = false -> a = b.
Proof. destruct a, b; vm_compute; congruence. Qed.

(** Alphabetically, ALT comes before CONTROL and CONTROL before SHIFT. *)
Lemma key_order : key_lt WXK_ALT WXK_CONTROL /\ key_lt WXK_CONTROL WXK_SHIFT.
Proof. split; reflexivity. Qed.

(** C8: canonicalization of a modifier key set is idempotent,
    canonicalize(canonicalize(s)) = canonicalize(s) for every collection
    [s] of modifier key identifiers; the canonical form is ascending,
    without repetition, and holds exactly the identifiers of [s]. *)
Theorem canonicalizeKeys_idempotent :
  forall s : list ModKey,
    canonicalizeKeys (canonicalizeKeys s) = canonicalizeKeys s
    /\ Sorted key_lt (canonicalizeKeys s)
    /\ NoDup (canonicalizeKeys s)
    /\ (forall k, In k (canonicalizeKeys s) <-> In k s).
Proof.
  intros s. unfold canonicalizeKeys. repeat split.
  - apply canonicalize_idem.
  - apply canonicalize_Sorted.
  - apply canonicalize_NoDup; [apply key_ltb_irrefl|apply key_ltb_trans].
  - apply canonicalize_In, key_ltb_total.
  - apply canonicalize_In, key_ltb_total.
Qed.

(** ** Facts shared by the table proofs *)

Lemma distinctb_NoDup {A : Type} (eqb : A -> A -> bool)
  (eqb_eq : forall a b, eqb a b = true <-> a = b) (l : list A) :
  distinctb eqb l = true -> NoDup l.
Proof.
  induction l as [|x l IH]; simpl; [constructor|].
  intros H. apply andb_true_iff in H. destruct H as [Hx Hl].
  constructor; [|apply IH, Hl].
  intros Hin. apply negb_true_iff in Hx.
  assert (existsb (eqb x) l = true) as Hex; [|congruence].
  apply existsb_exists. exists x. split; [exact Hin|now apply eqb_eq].
Qed.

Lemma dict_mem_get {K V : Type} (eqb : K -> K -> bool) (d : list (K * V)) k :
  dict_mem eqb d k = true -> exists v, dict_get eqb d k = Some v.
Proof.
  unfold dict_mem. destruct (dict_get eqb d k) as [v|]; [|discriminate].
  intros _. now exists v.
Qed.

Lemma dict_not_mem_get {K V : Type} (eqb : K -> K -> bool) (d : list (K * V)) k :
  dict_mem eqb d k = false -> dict_get eqb d k = None.
Proof.
  unfold dict_mem. destruct (dict_get eqb d k) as [v|]; [discriminate|reflexivity].
Qed.

(** Every dictionary of the module writes each of its keys once. *)
Lemma profiles_keys_distinct : NoDup (dict_keys profiles).
Proof. apply (distinctb_NoDup _ ViewType_eqb_eq). reflexivity. Qed.

Lemma profileHandlers_keys_distinct : NoDup (dict_keys profileHandlers).
Proof. apply (distinctb_NoDup _ HandlerKey_eqb_eq). vm_compute. reflexivity. Qed.

Lemma tempModes_keys_distinct P : NoDup (dict_keys (tempModes P)).
Proof.
  apply (distinctb_NoDup _ TempKey_eqb_eq). destruct P; vm_compute; reflexivity.
Qed.

Lemma altHandlers_keys_distinct P : NoDup (dict_keys (altHandlers P)).
Proof.
  apply (distinctb_NoDup _ ModeEvent_eqb_eq). destruct P; vm_compute; reflexivity.
Qed.

(** Every view panel class the module imports is a key of [profiles]. *)
Lemma profiles_total vt : exists names, dict_get ViewType_eqb profiles vt = Some names.
Proof. destruct vt; eexists; reflexivity. Qed.

(** ** The mode table: [profiles] and [profileHandlers] *)

(** C5: for every (ViewType, ModeName) pair such that ModeName is listed
    for ViewType in [profiles], mode resolution returns a handler class of
    [profileHandlers] (no dangling reference), and every entry written in
    [profileHandlers] under that key carries that same class (the lookup
    is not ambiguous). *)
Theorem profile_names_resolve :
  forall vt names name,
    dict_get ViewType_eqb profiles vt = Some names ->
    In name names ->
    exists h,
      resolveHandler vt name = Some h
      /\ (forall h', In ((vt, name), h') profileHandlers -> h' = h).
Proof.
  intros vt names name Hget Hin.
  apply (dict_get_In _ ViewType_eqb_eq) in Hget.
  assert (Hall : forallb namesResolve profiles = true) by (vm_compute; reflexivity).
  rewrite forallb_forall in Hall. specialize (Hall _ Hget).
  unfold namesResolve in Hall. cbn [fst snd] in Hall.
  rewrite forallb_forall in Hall. specialize (Hall _ Hin).
  apply dict_mem_get in Hall. destruct Hall as [h Hh].
  exists h. split; [exact Hh|].
  intros h' Hin'.
  pose proof (dict_get_unique _ HandlerKey_eqb_eq _ _ _
                profileHandlers_keys_distinct Hin') as Hh'.
  congruence.
Qed.

Lemma profile_names_resolve_witness :
  dict_get ViewType_eqb profiles OrthoPanel = Some ["view"; "edit"; "crop"; "annotate"]
  /\ In "edit" ["view"; "edit"; "crop"; "annotate"]
  /\ exists h,
       resolveHandler OrthoPanel "edit" = Some h
       /\ (forall h', In ((OrthoPanel, "edit"), h') profileHandlers -> h' = h).
Proof.
  split; [reflexivity|]. split; [simpl; auto|].
  apply (profile_names_resolve OrthoPanel ["view"; "edit"; "crop"; "annotate"] "edit").
  - reflexivity.
  - simpl; auto.
Defined.

(** C10: every ViewType registered in [profiles] lists ['view'] among its
    profile names, and (ViewType, 'view') has a handler entry in
    [profileHandlers]. *)
Theorem view_profile_everywhere :
  forall vt names,
    dict_get ViewType_eqb profiles vt = Some names ->
    In "view" names /\ exists h, resolveHandler vt "view" = Some h.
Proof.
  intros vt names Hget.
  apply (dict_get_In _ ViewType_eqb_eq) in Hget.
  assert (Hall : forallb viewAvailable profiles = true) by (vm_compute; reflexivity).
  rewrite forallb_forall in Hall. specialize (Hall _ Hget).
  unfold viewAvailable in Hall. cbn [fst snd] in Hall.
  apply andb_true_iff in Hall. destruct Hall as [Hlisted Hhandler].
  split.
  - apply existsb_exists in Hlisted. destruct Hlisted as [n [Hn E]].
    apply String.eqb_eq in E. now subst n.
  - now apply dict_mem_get in Hhandler.
Qed.

Lemma view_profile_everywhere_witness :
  dict_get ViewType_eqb profiles Scene3DPanel = Some ["view"]
  /\ In "view" ["view"]
  /\ exists h, resolveHandler Scene3DPanel "view" = Some h.
Proof.
  split; [reflexivity|].
  apply (view_profile_everywhere Scene3DPanel ["view"]). reflexivity.
Defined.

(** ** The temporary mode map *)

(** C9: for every profile class of [tempModeMap] and every entry
    ((BaseMode, ModifierKeySet) -> OverrideMode) of its map, the
    OverrideMode differs from the BaseMode. *)
Theorem override_differs_from_base :
  forall P d base m override,
    dict_get ProfileClass_eqb tempModeMap P = Some d ->
    In ((base, m), override) d ->
    override <> base.
Proof.
  intros P d base m override Hget Hin.
  apply (dict_get_In _ ProfileClass_eqb_eq) in Hget.
  assert (Hall : forallb (fun pd => forallb overrideDiffers (snd pd)) tempModeMap = true)
    by (vm_compute; reflexivity).
  rewrite forallb_forall in Hall. specialize (Hall _ Hget). cbn [fst snd] in Hall.
  rewrite forallb_forall in Hall. specialize (Hall _ Hin).
  unfold overrideDiffers in Hall. cbn [fst snd] in Hall.
  apply negb_true_iff, String.eqb_neq in Hall. congruence.
Qed.

Lemma override_differs_from_base_witness :
  dict_get ProfileClass_eqb tempModeMap OrthoCropProfile = Some tempModeMap_OrthoCropProfile
  /\ In (("crop", Key WXK_SHIFT), "nav") tempModeMap_OrthoCropProfile
  /\ "nav" <> "crop".
Proof.
  split; [reflexivity|]. split; [simpl; auto|].
  apply (override_differs_from_base OrthoCropProfile tempModeMap_OrthoCropProfile
           "crop" (Key WXK_SHIFT) "nav").
  - reflexivity.
  - simpl; auto.
Defined.

(** The tuples of [tempModeMap] are ascending, entry by entry. *)
Lemma tempModeMap_tuples_ascending P d base ks override :
  dict_get ProfileClass_eqb tempModeMap P = Some d ->
  In ((base, Keys ks), override) d ->
  Sorted key_lt ks.
Proof.
  intros Hget Hin.
  apply (dict_get_In _ ProfileClass_eqb_eq) in Hget.
  assert (Hall : forallb (fun pd => forallb tupleAscending (snd pd)) tempModeMap = true)
    by (vm_compute; reflexivity).
  rewrite forallb_forall in Hall. specialize (Hall _ Hget). cbn [fst snd] in Hall.
  rewrite forallb_forall in Hall. specialize (Hall _ Hin).
  unfold tupleAscending in Hall. cbn [fst snd] in Hall.
  apply ascendingb_Sorted in Hall. exact Hall.
Qed.

(** C6: every multi-key tuple written as a key of [tempModeMap] is sorted
    ascending by key identifier (the alphabetical order the source asks
    for), and all of them follow that one order: two tuples of the map,
    of any two profile classes, that hold the same keys are the same
    tuple. *)
Theorem tempModeMap_tuples_canonical :
  forall P d base ks override,
    dict_get ProfileClass_eqb tempModeMap P = Some d ->
    In ((base, Keys ks), override) d ->
    Sorted key_lt ks
    /\ (forall P' d' base' ks' override',
          dict_get ProfileClass_eqb tempModeMap P' = Some d' ->
          In ((base', Keys ks'), override') d' ->
          (forall k, In k ks <-> In k ks') ->
          ks' = ks).
Proof.
  intros P d base ks override Hget Hin.
  pose proof (tempModeMap_tuples_ascending _ _ _ _ _ Hget Hin) as Hs.
  split; [exact Hs|].
  intros P' d' base' ks' override' Hget' Hin' Hsame.
  pose proof (tempModeMap_tuples_ascending _ _ _ _ _ Hget' Hin') as Hs'.
  symmetry.
  apply (StronglySorted_ext key_ltb key_ltb_irrefl key_ltb_trans);
    try (apply (Sorted_strongly key_ltb key_ltb_trans); assumption).
  exact Hsame.
Qed.

Lemma tempModeMap_tuples_canonical_witness :
  Sorted key_lt [WXK_ALT; WXK_SHIFT]
  /\ (forall P' d' base' ks' override',
        dict_get ProfileClass_eqb tempModeMap P' = Some d' ->
        In ((base', Keys ks'), override') d' ->
        (forall k, In k [WXK_ALT; WXK_SHIFT] <-> In k ks') ->
        ks' = [WXK_ALT; WXK_SHIFT]).
Proof.
  apply (tempModeMap_tuples_canonical OrthoEditProfile tempModeMap_OrthoEditProfile
           "selint" [WXK_ALT; WXK_SHIFT] "chrad").
  - reflexivity.
  - simpl. do 15 right. left. reflexivity.
Defined.

(** ** The alternate handler map *)

(** In [altHandlerMap[OrthoViewProfile]] the target of the entry for
    ('nav', 'RightMouseDown') is itself a key of the same map: the chain
    goes on to ('zoom', 'RightMouseDrag'). *)
Lemma alt_target_is_also_key :
  exists d,
    dict_get ProfileClass_eqb altHandlerMap OrthoViewProfile = Some d
    /\ dict_get ModeEvent_eqb d ("nav", "RightMouseDown")
       = Some ("zoom", "RightMouseDown")
    /\ dict_get ModeEvent_eqb d ("zoom", "RightMouseDown")
       = Some ("zoom", "RightMouseDrag").
Proof.
  exists altHandlerMap_OrthoViewProfile. repeat split; vm_compute; reflexivity.
Qed.

(** C1 (amended): for every profile class of [altHandlerMap] and every
    key of its map, the target of the key is not a key of that map,
    except for four keys of the map of [OrthoViewProfile], ('nav',
    'RightMouseDown'), ('slice', 'LeftMouseDown'), ('slice',
    'RightMouseDown') and ('zoom', 'LeftMouseDown'); whenever a target is
    a key, the target of that key is not a key, so following the
    alternate entries ends after at most two hops and never cycles. *)
Theorem alt_redirect_chains :
  forall P d k t,
    dict_get ProfileClass_eqb altHandlerMap P = Some d ->
    dict_get ModeEvent_eqb d k = Some t ->
    (P <> OrthoViewProfile \/ ~ In k twoHopKeys ->
     dict_get ModeEvent_eqb d t = None)
    /\ (forall t', dict_get ModeEvent_eqb d t = Some t' ->
                   dict_get ModeEvent_eqb d t' = None).
Proof.
  intros P d k t HP Hk.
  apply (dict_get_In _ ProfileClass_eqb_eq) in HP.
  apply (dict_get_In _ ModeEvent_eqb_eq) in Hk.
  assert (Hall : forallb altChainsBounded altHandlerMap = true)
    by (vm_compute; reflexivity).
  rewrite forallb_forall in Hall. specialize (Hall _ HP).
  unfold altChainsBounded in Hall. cbn [fst snd] in Hall.
  rewrite forallb_forall in Hall. specialize (Hall _ Hk).
  unfold chainBounded in Hall. cbn [fst snd] in Hall.
  split.
  - intros Hone.
    destruct (dict_get ModeEvent_eqb d t) as [t'|]; [|reflexivity].
    exfalso. apply andb_true_iff in Hall. destruct Hall as [Hstrict _].
    rewrite negb_involutive in Hstrict. unfold isTwoHop in Hstrict.
    apply andb_true_iff in Hstrict. destruct Hstrict as [EP Ek].
    apply ProfileClass_eqb_eq in EP.
    apply existsb_exists in Ek. destruct Ek as [k' [Hin E]].
    apply ModeEvent_eqb_eq in E. subst k'.
    destruct Hone as [Hne|Hnot]; [now apply Hne|now apply Hnot].
  - intros t' Ht'. rewrite Ht' in Hall.
    apply andb_true_iff in Hall. destruct Hall as [_ Hmem].
    apply negb_true_iff in Hmem. now apply dict_not_mem_get.
Qed.

(** The four keys do chain: each is a key of the map of
    [OrthoViewProfile] and its target is a key as well. *)
Lemma twoHopKeys_chain :
  forallb
    (fun k =>
       match dict_get ModeEvent_eqb altHandlerMap_OrthoViewProfile k with
       | Some t => dict_mem ModeEvent_eqb altHandlerMap_OrthoViewProfile t
       | None => false
       end)
    twoHopKeys = true.
Proof. vm_compute. reflexivity. Qed.

Lemma alt_redirect_chains_witness :
  dict_get ProfileClass_eqb altHandlerMap OrthoViewProfile
  = Some altHandlerMap_OrthoViewProfile
  /\ dict_get ModeEvent_eqb altHandlerMap_OrthoViewProfile ("slice", "LeftMouseDown")
     = Some ("pick", "LeftMouseDown")
  /\ (OrthoViewProfile <> OrthoViewProfile
      \/ ~ In ("slice", "LeftMouseDown") twoHopKeys ->
      dict_get ModeEvent_eqb altHandlerMap_OrthoViewProfile ("pick", "LeftMouseDown")
      = None)
  /\ (forall t',
        dict_get ModeEvent_eqb altHandlerMap_OrthoViewProfile ("pick", "LeftMouseDown")
        = Some t' ->
        dict_get ModeEvent_eqb altHandlerMap_OrthoViewProfile t' = None).
Proof.
  split; [reflexivity|]. split; [reflexivity|].
  exact (alt_redirect_chains OrthoViewProfile altHandlerMap_OrthoViewProfile
           ("slice", "LeftMouseDown") ("pick", "LeftMouseDown") eq_refl eq_refl).
Defined.

(** ** Temporary mode resolution *)

(** The lookup finds exactly the entries written in the map. *)
Lemma getTempMode_entry P base held override :
  getTempMode P base held = Some override <->
  exists m, modifierOf (canonicalizeKeys held) = Some m
            /\ In ((base, m), override) (tempModes P).
Proof.
  unfold getTempMode. split.
  - destruct (modifierOf (canonicalizeKeys held)) as [m|]; [|discriminate].
    intros H. exists m. split; [reflexivity|].
    now apply (dict_get_In _ TempKey_eqb_eq) in H.
  - intros [m [Hm Hin]]. rewrite Hm.
    apply (dict_get_unique _ TempKey_eqb_eq); [apply tempModes_keys_distinct|exact Hin].
Qed.

Lemma getTempMode_applies P base held :
  (exists override, getTempMode P base held = Some override) <->
  exists m, modifierOf (canonicalizeKeys held) = Some m
            /\ In (base, m) (dict_keys (tempModes P)).
Proof.
  unfold getTempMode.
  destruct (modifierOf (canonicalizeKeys held)) as [m|].
  - rewrite (dict_get_Some_key _ TempKey_eqb_eq). split.
    + intros H. now exists m.
    + intros [m' [E H]]. inversion E; subst. exact H.
  - split.
    + intros [o H]. discriminate.
    + intros [m' [E _]]. discriminate.
Qed.

(** C4: temporary mode resolution is an exact-match lookup: an override
    applies if and only if the exact (BaseMode, ModifierKeySet) pair is a
    key of the profile's temporary mode map, and it is the mode written
    for that key; held keys that only contain, or are contained in, a
    registered combination give no override.  For OrthoViewProfile with
    base mode 'nav', holding Control gives 'zoom' and holding nothing
    gives 'nav' again. *)
Theorem temp_mode_exact_match :
  (forall P base held,
      (exists override, getTempMode P base held = Some override) <->
      (exists m, modifierOf (canonicalizeKeys held) = Some m
                 /\ In (base, m) (dict_keys (tempModes P))))
  /\ (forall P base held override,
        getTempMode P base held = Some override <->
        (exists m, modifierOf (canonicalizeKeys held) = Some m
                   /\ In ((base, m), override) (tempModes P)))
  /\ effectiveMode OrthoViewProfile "nav" [WXK_CONTROL] = "zoom"
  /\ effectiveMode OrthoViewProfile "nav" [] = "nav"
  /\ getTempMode OrthoViewProfile "nav" [WXK_CONTROL; WXK_ALT] = None
  /\ getTempMode LightBoxViewProfile "view" [WXK_SHIFT; WXK_CONTROL] = None
  /\ getTempMode OrthoViewProfile "nav" [WXK_SHIFT; WXK_CONTROL] = Some "bricon".
Proof.
  split; [exact getTempMode_applies|].
  split; [exact getTempMode_entry|].
  repeat split; vm_compute; reflexivity.
Qed.

(** ** Event dispatch *)

Section DispatchFacts.

Variable St : Type.
Variable methods : Mode -> InputEvent -> option (Method St).

Lemma invoke_registered m e h s :
  methods m e = Some h ->
  invoke St methods m e s = (Some (fst (h s)), [(m, e)], snd (h s)).
Proof.
  intros H. unfold invoke. rewrite H. destruct (h s) as [b s']. reflexivity.
Qed.

Lemma invoke_missing m e s :
  methods m e = None -> invoke St methods m e s = (None, [], s).
Proof. intros H. unfold invoke. rewrite H. reflexivity. Qed.

(** Without a fallback entry nothing more happens. *)
Lemma fallback_absent P mode ev s :
  dict_get ModeEvent_eqb (fallbackHandlers P) (mode, ev) = None ->
  fallback St methods P mode ev s = (Unhandled, [], s).
Proof. intros H. unfold fallback. rewrite H. reflexivity. Qed.

(** With a fallback entry, the method of its target is invoked. *)
Lemma fallback_present P mode ev fm fe g s :
  dict_get ModeEvent_eqb (fallbackHandlers P) (mode, ev) = Some (fm, fe) ->
  methods fm fe = Some g ->
  fallback St methods P mode ev s
  = ((if fst (g s) then Handled else Unhandled), [(fm, fe)], snd (g s)).
Proof.
  intros Hf Hg. unfold fallback, bind. rewrite Hf.
  rewrite (invoke_registered _ _ _ _ Hg).
  destruct (fst (g s)); reflexivity.
Qed.

(** The fallback step invokes at most the target of the fallback entry. *)
Lemma fallback_invoked P mode ev s x :
  In x (invoked (fallback St methods P mode ev s)) ->
  dict_get ModeEvent_eqb (fallbackHandlers P) (mode, ev) = Some x.
Proof.
  unfold fallback, bind.
  destruct (dict_get ModeEvent_eqb (fallbackHandlers P) (mode, ev)) as [[fm fe]|].
  - destruct (methods fm fe) as [g|] eqn:Hg.
    + rewrite (invoke_registered _ _ _ _ Hg).
      destruct (fst (g s)); simpl; intros [E|[]]; now subst.
    + rewrite (invoke_missing _ _ _ Hg). simpl. intros [].
  - simpl. intros [].
Qed.

(** With an alternate entry, the method of its target runs first; the
    fallback step follows when it declines. *)
Lemma dispatch_alternate P mode ev tm te h s :
  dict_get ModeEvent_eqb (altHandlers P) (mode, ev) = Some (tm, te) ->
  methods tm te = Some h ->
  dispatch St methods P mode ev s
  = if fst (h s) then (Handled, [(tm, te)], snd (h s))
    else
      let r := fallback St methods P mode ev (snd (h s)) in
      (outcome r, (tm, te) :: invoked r, final r).
Proof.
  intros Ha Hh. unfold dispatch, bind. rewrite Ha.
  rewrite (invoke_registered _ _ _ _ Hh).
  destruct (fst (h s)); [reflexivity|].
  destruct (fallback St methods P mode ev (snd (h s))) as [[o l] s2]. reflexivity.
Qed.

(** Without an alternate entry, the method of the literal pair runs
    first. *)
Lemma dispatch_native P mode ev h s :
  dict_get ModeEvent_eqb (altHandlers P) (mode, ev) = None ->
  methods mode ev = Some h ->
  dispatch St methods P mode ev s
  = if fst (h s) then (Handled, [(mode, ev)], snd (h s))
    else
      let r := fallback St methods P mode ev (snd (h s)) in
      (outcome r, (mode, ev) :: invoked r, final r).
Proof.
  intros Ha Hh. unfold dispatch, bind. rewrite Ha.
  rewrite (invoke_registered _ _ _ _ Hh).
  destruct (fst (h s)); [reflexivity|].
  destruct (fallback St methods P mode ev (snd (h s))) as [[o l] s2]. reflexivity.
Qed.

(** The method of the resolved target runs first, whichever way it was
    resolved. *)
Lemma dispatch_resolved P mode ev pm pe h s :
  resolveTarget P mode ev = (pm, pe) ->
  methods pm pe = Some h ->
  dispatch St methods P mode ev s
  = if fst (h s) then (Handled, [(pm, pe)], snd (h s))
    else
      let r := fallback St methods P mode ev (snd (h s)) in
      (outcome r, (pm, pe) :: invoked r, final r).
Proof.
  unfold resolveTarget.
  destruct (dict_get ModeEvent_eqb (altHandlers P) (mode, ev)) as [t|] eqn:Ha.
  - intros -> Hh. now apply dispatch_alternate.
  - intros E Hh. inversion E; subst. now apply dispatch_native.
Qed.

(** After the startup validation, dispatch never meets a dangling
    redirect. *)
Lemma dispatch_validated P mode ev s :
  validRedirects St methods P = true ->
  outcome (dispatch St methods P mode ev s) <> ConfigurationError.
Proof.
  unfold validRedirects. intros H. apply andb_true_iff in H.
  destruct H as [Ha Hf]. rewrite forallb_forall in Ha, Hf.
  assert (Hfb : forall s', outcome (fallback St methods P mode ev s') <> ConfigurationError).
  { intros s'. unfold fallback, bind.
    destruct (dict_get ModeEvent_eqb (fallbackHandlers P) (mode, ev))
      as [[fm fe]|] eqn:E; [|simpl; discriminate].
    apply (dict_get_In _ ModeEvent_eqb_eq) in E. specialize (Hf _ E).
    unfold hasMethod in Hf. cbn [fst snd] in Hf.
    destruct (methods fm fe) as [g|] eqn:Hg; [|discriminate].
    rewrite (invoke_registered _ _ _ _ Hg).
    destruct (fst (g s')); simpl; discriminate. }
  unfold dispatch, bind.
  destruct (dict_get ModeEvent_eqb (altHandlers P) (mode, ev)) as [[tm te]|] eqn:E.
  - apply (dict_get_In _ ModeEvent_eqb_eq) in E. specialize (Ha _ E).
    unfold hasMethod in Ha. cbn [fst snd] in Ha.
    destruct (methods tm te) as [h|] eqn:Hh; [|discriminate].
    rewrite (invoke_registered _ _ _ _ Hh).
    destruct (fst (h s)); [simpl; discriminate|].
    specialize (Hfb (snd (h s))).
    destruct (fallback St methods P mode ev (snd (h s))) as [[o l] s2]. exact Hfb.
  - destruct (methods mode ev) as [h|] eqn:Hh.
    + rewrite (invoke_registered _ _ _ _ Hh).
      destruct (fst (h s)); [simpl; discriminate|].
      specialize (Hfb (snd (h s))).
      destruct (fallback St methods P mode ev (snd (h s))) as [[o l] s2]. exact Hfb.
    + rewrite (invoke_missing _ _ _ Hh).
      specialize (Hfb s).
      destruct (fallback St methods P mode ev s) as [[o l] s2]. exact Hfb.
Qed.

End DispatchFacts.

(** C2: when the effective mode and the input event are a key of the
    alternate handler map, dispatch invokes the method registered for the
    target (TargetMode, TargetInputEvent) first, in place of the method of
    the literal pair; whatever else it invokes is the fallback target.
    For OrthoViewProfile in mode 'nav', 'RightMouseDown' runs zoom's
    RightMouseDown method and nothing else; for OrthoEditProfile in mode
    'sel', 'RightMouseDown' runs desel's LeftMouseDown method and nothing
    else. *)
Theorem dispatch_uses_alternate :
  forall (St : Type) (methods : Mode -> InputEvent -> option (Method St)),
    (forall P base held ev tm te h s,
        dict_get ModeEvent_eqb (altHandlers P) (effectiveMode P base held, ev)
        = Some (tm, te) ->
        methods tm te = Some h ->
        exists rest,
          invoked (dispatchEvent St methods P base held ev s) = (tm, te) :: rest
          /\ (fst (h s) = true ->
              dispatchEvent St methods P base held ev s
              = (Handled, [(tm, te)], snd (h s)))
          /\ (forall x, In x rest ->
                dict_get ModeEvent_eqb (fallbackHandlers P)
                  (effectiveMode P base held, ev) = Some x))
    /\ (forall h s,
          methods "zoom" "RightMouseDown" = Some h ->
          dispatchEvent St methods OrthoViewProfile "nav" [] "RightMouseDown" s
          = ((if fst (h s) then Handled else Unhandled),
             [("zoom", "RightMouseDown")], snd (h s)))
    /\ (forall h s,
          methods "desel" "LeftMouseDown" = Some h ->
          dispatchEvent St methods OrthoEditProfile "sel" [] "RightMouseDown" s
          = ((if fst (h s) then Handled else Unhandled),
             [("desel", "LeftMouseDown")], snd (h s))).
Proof.
  intros St methods. split; [|split].
  - intros P base held ev tm te h s Ha Hh. unfold dispatchEvent.
    rewrite (dispatch_alternate St methods _ _ _ _ _ _ s Ha Hh).
    destruct (fst (h s)) eqn:Eh.
    + exists []. split; [reflexivity|]. split; [reflexivity|]. intros x [].
    + exists (invoked (fallback St methods P (effectiveMode P base held) ev (snd (h s)))).
      split; [reflexivity|]. split; [discriminate|].
      intros x Hx. now apply fallback_invoked in Hx.
  - intros h s Hh. unfold dispatchEvent.
    change (effectiveMode OrthoViewProfile "nav" []) with "nav".
    rewrite (dispatch_alternate St methods OrthoViewProfile "nav" "RightMouseDown"
               "zoom" "RightMouseDown" h s eq_refl Hh).
    rewrite fallback_absent by reflexivity.
    destruct (fst (h s)); reflexivity.
  - intros h s Hh. unfold dispatchEvent.
    change (effectiveMode OrthoEditProfile "sel" []) with "sel".
    rewrite (dispatch_alternate St methods OrthoEditProfile "sel" "RightMouseDown"
               "desel" "LeftMouseDown" h s eq_refl Hh).
    rewrite fallback_absent by reflexivity.
    destruct (fst (h s)); reflexivity.
Qed.

Lemma dispatch_uses_alternate_witness :
  demoMethods "zoom" "RightMouseDown" = Some demoZoom
  /\ dispatchEvent nat demoMethods OrthoViewProfile "nav" [] "RightMouseDown" 0
     = (Handled, [("zoom", "RightMouseDown")], 1).
Proof.
  split; [reflexivity|].
  apply (proj1 (proj2 (dispatch_uses_alternate nat demoMethods)) demoZoom 0).
  reflexivity.
Defined.

(** C3: when the resolved primary handler for (Mode, InputEvent) returns
    false and the fallback handler map has an entry for (Mode,
    InputEvent), dispatch then invokes the method of the fallback target.
    For OrthoViewProfile in mode 'pick', 'LeftMouseDown' is handled first
    by pick's LeftMouseDrag method (the alternate entry); when it
    declines, nav's LeftMouseDown method is invoked. *)
Theorem dispatch_falls_back :
  forall (St : Type) (methods : Mode -> InputEvent -> option (Method St)),
    (forall P mode ev pm pe h fm fe g s,
        resolveTarget P mode ev = (pm, pe) ->
        methods pm pe = Some h ->
        fst (h s) = false ->
        dict_get ModeEvent_eqb (fallbackHandlers P) (mode, ev) = Some (fm, fe) ->
        methods fm fe = Some g ->
        dispatch St methods P mode ev s
        = ((if fst (g (snd (h s))) then Handled else Unhandled),
           [(pm, pe); (fm, fe)], snd (g (snd (h s)))))
    /\ (forall h g s,
          methods "pick" "LeftMouseDrag" = Some h ->
          fst (h s) = false ->
          methods "nav" "LeftMouseDown" = Some g ->
          dispatchEvent St methods OrthoViewProfile "pick" [] "LeftMouseDown" s
          = ((if fst (g (snd (h s))) then Handled else Unhandled),
             [("pick", "LeftMouseDrag"); ("nav", "LeftMouseDown")],
             snd (g (snd (h s))))).
Proof.
  intros St methods.
  assert (General : forall P mode ev pm pe h fm fe g s,
             resolveTarget P mode ev = (pm, pe) ->
             methods pm pe = Some h ->
             fst (h s) = false ->
             dict_get ModeEvent_eqb (fallbackHandlers P) (mode, ev) = Some (fm, fe) ->
             methods fm fe = Some g ->
             dispatch St methods P mode ev s
             = ((if fst (g (snd (h s))) then Handled else Unhandled),
                [(pm, pe); (fm, fe)], snd (g (snd (h s))))).
  { intros P mode ev pm pe h fm fe g s Hr Hh Hdecl Hf Hg.
    rewrite (dispatch_resolved St methods _ _ _ _ _ _ s Hr Hh), Hdecl.
    rewrite (fallback_present St methods _ _ _ _ _ _ (snd (h s)) Hf Hg).
    reflexivity. }
  split; [exact General|].
  intros h g s Hh Hdecl Hg. unfold dispatchEvent.
  change (effectiveMode OrthoViewProfile "pick" []) with "pick".
  apply General; try assumption; reflexivity.
Qed.

Lemma dispatch_falls_back_witness :
  demoMethods "pick" "LeftMouseDrag" = Some demoPick
  /\ fst (demoPick 0) = false
  /\ demoMethods "nav" "LeftMouseDown" = Some demoNav
  /\ dispatchEvent nat demoMethods OrthoViewProfile "pick" [] "LeftMouseDown" 0
     = (Handled, [("pick", "LeftMouseDrag"); ("nav", "LeftMouseDown")], 10).
Proof.
  split; [reflexivity|]. split; [reflexivity|]. split; [reflexivity|].
  apply (proj2 (dispatch_falls_back nat demoMethods) demoPick demoNav 0);
    reflexivity.
Defined.

(** C7: for a (Mode, InputEvent) pair with no method registered for it,
    no entry in the alternate handler map and no entry in the fallback
    handler map, dispatch returns "unhandled": it reports no error,
    invokes no handler method and leaves the state as it was. *)
Theorem dispatch_unhandled :
  forall (St : Type) (methods : Mode -> InputEvent -> option (Method St))
         P mode ev s,
    methods mode ev = None ->
    dict_get ModeEvent_eqb (altHandlers P) (mode, ev) = None ->
    dict_get ModeEvent_eqb (fallbackHandlers P) (mode, ev) = None ->
    dispatch St methods P mode ev s = (Unhandled, [], s)
    /\ (forall base held,
          effectiveMode P base held = mode ->
          dispatchEvent St methods P base held ev s = (Unhandled, [], s)).
Proof.
  intros St methods P mode ev s Hm Ha Hf.
  assert (E : dispatch St methods P mode ev s = (Unhandled, [], s)).
  { unfold dispatch, bind. rewrite Ha.
    rewrite (invoke_missing St methods _ _ _ Hm).
    rewrite (fallback_absent St methods _ _ _ _ Hf). reflexivity. }
  split; [exact E|].
  intros base held Heff. unfold dispatchEvent. rewrite Heff. exact E.
Qed.

Lemma dispatch_unhandled_witness :
  demoMethods "panzoom" "LeftMouseDown" = None
  /\ dict_get ModeEvent_eqb (altHandlers PlotProfile) ("panzoom", "LeftMouseDown") = None
  /\ dict_get ModeEvent_eqb (fallbackHandlers PlotProfile) ("panzoom", "LeftMouseDown") = None
  /\ dispatch nat demoMethods PlotProfile "panzoom" "LeftMouseDown" 7 = (Unhandled, [], 7).
Proof.
  split; [reflexivity|]. split; [reflexivity|]. split; [reflexivity|].
  apply (dispatch_unhandled nat demoMethods PlotProfile "panzoom" "LeftMouseDown" 7);
    reflexivity.
Defined.

From Stdlib Require Import PeanoNat ZArith Lia.

(** * Further properties of the tables of [profilemap.py] *)

Module ProfileMapTables.

(** The pair of an entry of [profileHandlers] is listed in [profiles]. *)
Definition handlerListed (entry : HandlerKey * ProfileClass) : bool :=
  match dict_get ViewType_eqb profiles (fst (fst entry)) with
  | Some names => existsb (String.eqb (snd (fst entry))) names
  | None => false
  end.

(** A profile class is the handler of some entry of [profileHandlers]. *)
Definition isHandler (P : ProfileClass) : bool :=
  existsb (fun entry => ProfileClass_eqb P (snd entry)) profileHandlers.

(** The keys of every inner dictionary of a handler map are distinct. *)
Definition innerKeysDistinct {K V : Type} (eqb : K -> K -> bool)
  (m : list (ProfileClass * list (K * V))) : bool :=
  forallb (fun pd => distinctb eqb (dict_keys (snd pd))) m.

(** The temporary mode of [entry] is no base mode of the map [d]. *)
Definition overrideNotBase (d : list (TempKey * Mode)) (entry : TempKey * Mode) : bool :=
  negb (existsb (fun k => String.eqb (snd entry) (fst k)) (dict_keys d)).

(** A multi-key entry of [d] names two keys, each registered on its own
    for the same base mode. *)
Definition tupleRefinesSingles (d : list (TempKey * Mode)) (entry : TempKey * Mode) : bool :=
  match snd (fst entry) with
  | Key _ => true
  | Keys ks =>
      Nat.eqb (List.length ks) 2
      && forallb (fun k => dict_mem TempKey_eqb d (fst (fst entry), Key k)) ks
  end.

Lemma innerKeysDistinct_NoDup {K V : Type} (eqb : K -> K -> bool)
  (eqb_eq : forall a b, eqb a b = true <-> a = b)
  (m : list (ProfileClass * list (K * V))) P d :
  innerKeysDistinct eqb m = true ->
  dict_get ProfileClass_eqb m P = Some d ->
  NoDup (dict_keys d).
Proof.
  intros Hall Hget. apply (dict_get_In _ ProfileClass_eqb_eq) in Hget.
  unfold innerKeysDistinct in Hall. rewrite forallb_forall in Hall.
  specialize (Hall _ Hget). cbn [snd] in Hall.
  now apply (distinctb_NoDup eqb eqb_eq).
Qed.

(** X1: [profileHandlers] has entries only for (view panel class, profile
    name) pairs that [profiles] lists, and no profile class is the handler
    of two different pairs. *)
Theorem profileHandlers_exact :
  (forall vt name P,
      resolveHandler vt name = Some P ->
      exists names,
        dict_get ViewType_eqb profiles vt = Some names /\ In name names)
  /\ (forall k1 k2 P,
        dict_get HandlerKey_eqb profileHandlers k1 = Some P ->
        dict_get HandlerKey_eqb profileHandlers k2 = Some P ->
        k1 = k2).
Proof.
  split.
  - intros vt name P Hget. unfold resolveHandler in Hget.
    apply (dict_get_In _ HandlerKey_eqb_eq) in Hget.
    assert (Hall : forallb handlerListed profileHandlers = true)
      by (vm_compute; reflexivity).
    rewrite forallb_forall in Hall. specialize (Hall _ Hget).
    unfold handlerListed in Hall. cbn [fst snd] in Hall.
    destruct (dict_get ViewType_eqb profiles vt) as [names|]; [|discriminate].
    exists names. split; [reflexivity|].
    apply existsb_exists in Hall. destruct Hall as [n [Hn E]].
    apply String.eqb_eq in E. now subst n.
  - intros k1 k2 P H1 H2.
    apply (dict_get_In _ HandlerKey_eqb_eq) in H1, H2.
    assert (Hall : forallb (fun e1 => forallb (fun e2 =>
                implb (ProfileClass_eqb (snd e1) (snd e2))
                      (HandlerKey_eqb (fst e1) (fst e2)))
              profileHandlers) profileHandlers = true)
      by (vm_compute; reflexivity).
    rewrite forallb_forall in Hall. specialize (Hall _ H1). cbn beta in Hall.
    rewrite forallb_forall in Hall. specialize (Hall _ H2). cbn [fst snd] in Hall.
    assert (E : ProfileClass_eqb P P = true) by now apply ProfileClass_eqb_eq.
    rewrite E in Hall. now apply HandlerKey_eqb_eq.
Qed.

(** X2: every profile class that is a key of [tempModeMap],
    [altHandlerMap] or [fallbackHandlerMap] is the handler class of some
    entry of [profileHandlers]: no map is written for a class that is
    never created. *)
Theorem mapped_profiles_are_handlers :
  forall P,
    In P (dict_keys tempModeMap) \/ In P (dict_keys altHandlerMap)
    \/ In P (dict_keys fallbackHandlerMap) ->
    exists vt name, resolveHandler vt name = Some P.
Proof.
  intros P HP.
  assert (Hall : forallb isHandler
            (dict_keys tempModeMap ++ dict_keys altHandlerMap
               ++ dict_keys fallbackHandlerMap) = true)
    by (vm_compute; reflexivity).
  rewrite forallb_forall in Hall.
  assert (Hin : In P (dict_keys tempModeMap ++ dict_keys altHandlerMap
                        ++ dict_keys fallbackHandlerMap)).
  { rewrite !in_app_iff. tauto. }
  specialize (Hall _ Hin). unfold isHandler in Hall.
  apply existsb_exists in Hall. destruct Hall as [[[vt name] Q] [Hentry E]].
  cbn [snd] in E. apply ProfileClass_eqb_eq in E. subst Q.
  exists vt, name. unfold resolveHandler.
  apply (dict_get_unique _ HandlerKey_eqb_eq);
    [apply profileHandlers_keys_distinct|exact Hentry].
Qed.

Lemma mapped_profiles_are_handlers_witness :
  (In HistogramProfile (dict_keys tempModeMap)
   \/ In HistogramProfile (dict_keys altHandlerMap)
   \/ In HistogramProfile (dict_keys fallbackHandlerMap))
  /\ exists vt name, resolveHandler vt name = Some HistogramProfile.
Proof.
  assert (H : In HistogramProfile (dict_keys tempModeMap)
              \/ In HistogramProfile (dict_keys altHandlerMap)
              \/ In HistogramProfile (dict_keys fallbackHandlerMap)).
  { left. simpl. tauto. }
  split; [exact H|].
  exact (mapped_profiles_are_handlers HistogramProfile H).
Defined.

(** X3: no key is written twice, in any dictionary of the module: the
    profile classes of each of the three handler maps are distinct, and
    so are the keys of the map of every profile class.  No entry is
    overridden by a later one. *)
Theorem handler_maps_keys_distinct :
  (NoDup (dict_keys tempModeMap) /\ NoDup (dict_keys altHandlerMap)
   /\ NoDup (dict_keys fallbackHandlerMap))
  /\ (forall P d, dict_get ProfileClass_eqb tempModeMap P = Some d ->
                  NoDup (dict_keys d))
  /\ (forall P d, dict_get ProfileClass_eqb altHandlerMap P = Some d ->
                  NoDup (dict_keys d))
  /\ (forall P d, dict_get ProfileClass_eqb fallbackHandlerMap P = Some d ->
                  NoDup (dict_keys d)).
Proof.
  split; [|split; [|split]].
  - repeat split; apply (distinctb_NoDup _ ProfileClass_eqb_eq); reflexivity.
  - intros P d. apply (innerKeysDistinct_NoDup _ TempKey_eqb_eq).
    vm_compute. reflexivity.
  - intros P d. apply (innerKeysDistinct_NoDup _ ModeEvent_eqb_eq).
    vm_compute. reflexivity.
  - intros P d. apply (innerKeysDistinct_NoDup _ ModeEvent_eqb_eq).
    vm_compute. reflexivity.
Qed.

(** X4: temporary modes do not nest: in the map of every profile class,
    the temporary mode of an entry is never the base mode of an entry of
    that map, so no modifier leads on from a temporary mode. *)
Theorem temporary_modes_do_not_nest :
  forall P d base m override,
    dict_get ProfileClass_eqb tempModeMap P = Some d ->
    In ((base, m), override) d ->
    forall m', ~ In (override, m') (dict_keys d).
Proof.
  intros P d base m override Hget Hin m' Hkey.
  apply (dict_get_In _ ProfileClass_eqb_eq) in Hget.
  assert (Hall : forallb (fun pd => forallb (overrideNotBase (snd pd)) (snd pd))
                   tempModeMap = true) by (vm_compute; reflexivity).
  rewrite forallb_forall in Hall. specialize (Hall _ Hget). cbn [snd] in Hall.
  rewrite forallb_forall in Hall. specialize (Hall _ Hin).
  unfold overrideNotBase in Hall. cbn [fst snd] in Hall.
  apply negb_true_iff, not_true_iff_false in Hall. apply Hall.
  apply existsb_exists. exists (override, m'). split; [exact Hkey|].
  apply String.eqb_refl.
Qed.

Lemma temporary_modes_do_not_nest_witness :
  dict_get ProfileClass_eqb tempModeMap OrthoCropProfile
  = Some tempModeMap_OrthoCropProfile
  /\ In (("crop", Key WXK_SHIFT), "nav") tempModeMap_OrthoCropProfile
  /\ forall m', ~ In ("nav", m') (dict_keys tempModeMap_OrthoCropProfile).
Proof.
  split; [reflexivity|]. split; [simpl; auto|].
  apply (temporary_modes_do_not_nest OrthoCropProfile tempModeMap_OrthoCropProfile
           "crop" (Key WXK_SHIFT) "nav").
  - reflexivity.
  - simpl; auto.
Defined.

(** X5: every multi-key entry of [tempModeMap] names exactly two modifier
    keys, and each of the two is registered on its own for the same base
    mode in the same map. *)
Theorem tuples_refine_single_keys :
  forall P d base ks override,
    dict_get ProfileClass_eqb tempModeMap P = Some d ->
    In ((base, Keys ks), override) d ->
    List.length ks = 2
    /\ (forall k, In k ks ->
          exists single, dict_get TempKey_eqb d (base, Key k) = Some single).
Proof.
  intros P d base ks override Hget Hin.
  apply (dict_get_In _ ProfileClass_eqb_eq) in Hget.
  assert (Hall : forallb (fun pd => forallb (tupleRefinesSingles (snd pd)) (snd pd))
                   tempModeMap = true) by (vm_compute; reflexivity).
  rewrite forallb_forall in Hall. specialize (Hall _ Hget). cbn [snd] in Hall.
  rewrite forallb_forall in Hall. specialize (Hall _ Hin).
  unfold tupleRefinesSingles in Hall. cbn [fst snd] in Hall.
  apply andb_true_iff in Hall. destruct Hall as [Hlen Hsingles].
  split; [now apply Nat.eqb_eq|].
  intros k Hk. rewrite forallb_forall in Hsingles.
  now apply dict_mem_get, Hsingles.
Qed.

Lemma tuples_refine_single_keys_witness :
  dict_get ProfileClass_eqb tempModeMap OrthoViewProfile
  = Some tempModeMap_OrthoViewProfile
  /\ In (("nav", Keys [WXK_CONTROL; WXK_SHIFT]), "bricon") tempModeMap_OrthoViewProfile
  /\ List.length [WXK_CONTROL; WXK_SHIFT] = 2
  /\ (forall k, In k [WXK_CONTROL; WXK_SHIFT] ->
        exists single,
          dict_get TempKey_eqb tempModeMap_OrthoViewProfile ("nav", Key k)
          = Some single).
Proof.
  split; [reflexivity|]. split; [simpl; auto|].
  apply (tuples_refine_single_keys OrthoViewProfile tempModeMap_OrthoViewProfile
           "nav" [WXK_CONTROL; WXK_SHIFT] "bricon").
  - reflexivity.
  - simpl; auto.
Defined.

End ProfileMapTables.

(** * Off-screen rendering: the size arithmetic of [fsleyes/render.py] *)

Module Render.

Local Open Scope Z_scope.

Definition CBAR_SIZE : Z := 75.
Definition LABEL_SIZE : Z := 20.

(** [s in (c1, c2, ...)] for a string and a tuple of strings. *)
Definition isIn (s : string) (choices : list string) : bool :=
  existsb (String.eqb s) choices.

(** [adjustSizeForColourBar]: the (width, height) left for the canvases
    and the (width, height) of the colour bar. *)
Definition adjustSizeForColourBar (width height : Z) (showColourBar : bool)
  (colourBarLocation : string) : (Z * Z) * (Z * Z) :=
  if showColourBar then
    let cbarWidth := CBAR_SIZE in
    if isIn colourBarLocation ["top"; "bottom"] then
      let height := height - cbarWidth in
      let cbarHeight := cbarWidth in
      let cbarWidth := width in
      ((width, height), (cbarWidth, cbarHeight))
    else
      let width := width - cbarWidth in
      let cbarHeight := height in
      ((width, height), (cbarWidth, cbarHeight))
  else
    let cbarWidth := 0 in
    let cbarHeight := 0 in
    ((width, height), (cbarWidth, cbarHeight)).

(** The layout objects of [fsl.utils.layout] that the module builds. *)
#[warnings="-register-all"]
Inductive Layout (B : Type) : Type :=
| Bitmap (bmp : B)
| VBox (items : list (Layout B))
| HBox (items : list (Layout B)).

Arguments Bitmap {B} bmp.
Arguments VBox {B} items.
Arguments HBox {B} items.

(** What a call of [buildColourBarLayout] comes to: a layout, [None]
    (no [return] is reached), or the error Python raises when a local
    variable is read before it was assigned. *)
Inductive Built (B : Type) : Type :=
| Returned (layout : Layout B)
| ReturnedNone
| UnboundLocalError.

Arguments Returned {B} layout.
Arguments ReturnedNone {B}.
Arguments UnboundLocalError {B}.

(** [buildColourBarLayout]: [items] is assigned by the first [if]/[elif]
    and read by the second. *)
Definition buildColourBarLayout {B : Type} (canvasLayout : Layout B) (cbarBmp : B)
  (cbarLocation cbarLabelSide : string) : Built B :=
  let cbarBmp := Bitmap cbarBmp in
  let items :=
    if isIn cbarLocation ["top"; "left"] then Some [cbarBmp; canvasLayout]
    else if isIn cbarLocation ["bottom"; "right"] then Some [canvasLayout; cbarBmp]
    else None in
  if isIn cbarLocation ["top"; "bottom"] then
    match items with Some its => Returned (VBox its) | None => UnboundLocalError end
  else if isIn cbarLocation ["left"; "right"] then
    match items with Some its => Returned (HBox its) | None => UnboundLocalError end
  else ReturnedNone.

(** The exceptions of the size computation for the ortho view. *)
Inductive Raised : Type :=
| ValueError
| IndexError.

Section OrthoSizes.

(** The axis lengths are floating point numbers and [calcSizes] is
    [fsl.utils.layout.calcSizes]; both stay abstract. *)
Variables AxisLen Sizes : Type.
Variable calcSizes : string -> list (Z * Z) -> list AxisLen -> Z -> Z -> Sizes.

(** [calculateOrthoCanvasSizes], with the axis lengths of
    [displayCtx.bounds] as an argument. *)
Definition calculateOrthoCanvasSizes (axisLens : list AxisLen) (width height : Z)
  (canvasAxes : list (Z * Z)) (showLabels : bool) (layout : string)
  : Raised + Sizes :=
  let n := Z.of_nat (List.length canvasAxes) in
  if String.eqb layout "grid" && (n <=? 2) then inl ValueError
  else
    let '(width, height) :=
      if showLabels then
        if String.eqb layout "horizontal" then
          (width - 2 * LABEL_SIZE * n, height - 2 * LABEL_SIZE)
        else if String.eqb layout "vertical" then
          (width - 2 * LABEL_SIZE, height - 2 * LABEL_SIZE * n)
        else if String.eqb layout "grid" then
          (width - 4 * LABEL_SIZE, height - 4 * LABEL_SIZE)
        else (width, height)
      else (width, height) in
    inr (calcSizes layout canvasAxes axisLens width height).

(** [main], ortho scene: the horizontal and vertical axes of the canvases
    that are shown, in the order X, Y, Z. *)
Definition canvasAxesOf (showXCanvas showYCanvas showZCanvas : bool) : list (Z * Z) :=
  (if showXCanvas then [(1, 2)] else [])
  ++ (if showYCanvas then [(0, 2)] else [])
  ++ (if showZCanvas then [(0, 1)] else []).

(** [main], ortho scene, from the list of canvas axes to the call of
    [calculateOrthoCanvasSizes]: a grid layout with fewer than three
    canvases becomes horizontal, and for a grid the canvases are
    reordered by index ([canvasAxes[1]], [canvasAxes[0]],
    [canvasAxes[2]]).  The result holds the layout, the axes in their
    final order and the sizes. *)
Definition mainOrthoSizes (axisLens : list AxisLen) (width height : Z)
  (showXCanvas showYCanvas showZCanvas showLabels : bool) (layout : string)
  : Raised + (string * list (Z * Z) * Sizes) :=
  let canvasAxes := canvasAxesOf showXCanvas showYCanvas showZCanvas in
  let layout :=
    if String.eqb layout "grid" && (Z.of_nat (List.length canvasAxes) <=? 2)
    then "horizontal"%string else layout in
  let reordered :=
    if String.eqb layout "grid" then
      match nth_error canvasAxes 1, nth_error canvasAxes 0, nth_error canvasAxes 2 with
      | Some a1, Some a0, Some a2 => inr [a1; a0; a2]
      | _, _, _ => inl IndexError
      end
    else inr canvasAxes in
  match reordered with
  | inl e => inl e
  | inr canvasAxes =>
      match calculateOrthoCanvasSizes axisLens width height canvasAxes showLabels layout with
      | inl e => inl e
      | inr sizes => inr (layout, canvasAxes, sizes)
      end
  end.

(** [main]: the depth axis of a canvas with the given horizontal and
    vertical axes, [zax = 3 - xax - yax]. *)
Definition zaxOf (axes : Z * Z) : Z := 3 - fst axes - snd axes.

End OrthoSizes.

Arguments calculateOrthoCanvasSizes {AxisLen Sizes} calcSizes axisLens width height
  canvasAxes showLabels layout.
Arguments mainOrthoSizes {AxisLen Sizes} calcSizes axisLens width height
  showXCanvas showYCanvas showZCanvas showLabels layout.


(** X7: [adjustSizeForColourBar] does not clamp: when a colour bar is
    shown at the top or bottom and the requested height is below
    [CBAR_SIZE], the canvas height it returns is negative (the same for
    the width with a bar at any other location). *)
Theorem adjustSize_does_not_clamp :
  forall width height loc,
    (isIn loc ["top"; "bottom"] = true -> height < CBAR_SIZE ->
     snd (fst (adjustSizeForColourBar width height true loc)) < 0)
    /\ (isIn loc ["top"; "bottom"] = false -> width < CBAR_SIZE ->
        fst (fst (adjustSizeForColourBar width height true loc)) < 0).
Proof.
  intros width height loc. unfold adjustSizeForColourBar.
  split; intros Hloc Hsmall; rewrite Hloc; cbn [fst snd]; lia.
Qed.

Lemma adjustSize_does_not_clamp_witness :
  isIn "bottom" ["top"; "bottom"] = true
  /\ 50 < CBAR_SIZE
  /\ snd (fst (adjustSizeForColourBar 800 50 true "bottom")) < 0.
Proof.
  split; [reflexivity|]. split; [reflexivity|].
  apply (proj1 (adjustSize_does_not_clamp 800 50 "bottom")); reflexivity.
Defined.

(** X8: [buildColourBarLayout] never reads [items] unassigned, whatever
    the location string is; it returns [None] exactly for a location
    other than 'top', 'bottom', 'left' and 'right'. *)
Theorem buildColourBarLayout_total :
  forall (B : Type) (canvasLayout : Layout B) (cbarBmp : B) loc side,
    buildColourBarLayout canvasLayout cbarBmp loc side <> UnboundLocalError
    /\ (buildColourBarLayout canvasLayout cbarBmp loc side = ReturnedNone
        <-> isIn loc ["top"; "bottom"; "left"; "right"] = false).
Proof.
  intros B canvasLayout cbarBmp loc side.
  unfold buildColourBarLayout, isIn. cbn [existsb].
  destruct (String.eqb loc "top"), (String.eqb loc "bottom"),
    (String.eqb loc "left"), (String.eqb loc "right"); cbn;
    (split; [discriminate|split; intros H; (reflexivity || discriminate H)]).
Qed.

(** X9: for each of the four locations, the box [buildColourBarLayout]
    returns stacks its two items along the side that
    [adjustSizeForColourBar] shortened: a [VBox] when the canvas and the
    bar have the requested width and their heights add up to the
    requested height, an [HBox] the other way round; the bar comes first
    for 'top' and 'left', the canvases first for 'bottom' and 'right'. *)
Theorem colour_bar_layout_matches_sizes :
  forall (B : Type) (canvasLayout : Layout B) (cbarBmp : B) loc side width height,
    isIn loc ["top"; "bottom"; "left"; "right"] = true ->
    let '((w, h), (cw, ch)) := adjustSizeForColourBar width height true loc in
    let items :=
      if isIn loc ["top"; "left"] then [Bitmap cbarBmp; canvasLayout]
      else [canvasLayout; Bitmap cbarBmp] in
    (buildColourBarLayout canvasLayout cbarBmp loc side = Returned (VBox items)
     /\ w = width /\ cw = width /\ h + ch = height)
    \/ (buildColourBarLayout canvasLayout cbarBmp loc side = Returned (HBox items)
        /\ h = height /\ ch = height /\ w + cw = width).
Proof.
  intros B canvasLayout cbarBmp loc side width height.
  unfold buildColourBarLayout, adjustSizeForColourBar, isIn, CBAR_SIZE.
  cbn [existsb].
  destruct (String.eqb loc "top") eqn:Et; [|destruct (String.eqb loc "bottom") eqn:Eb;
    [|destruct (String.eqb loc "left") eqn:El;
       [|destruct (String.eqb loc "right") eqn:Er]]]; cbn; intros Hloc.
  - left. split; [|lia].
    destruct (String.eqb loc "bottom"); reflexivity.
  - left. split; [|lia].
    apply String.eqb_eq in Eb. subst loc. reflexivity.
  - right. split; [reflexivity|lia].
  - right. split; [reflexivity|lia].
  - discriminate.
Qed.

Lemma colour_bar_layout_matches_sizes_witness :
  isIn "left" ["top"; "bottom"; "left"; "right"] = true
  /\ ((buildColourBarLayout (Bitmap 1%nat) 2%nat "left" "top"
       = Returned (VBox [Bitmap 2%nat; Bitmap 1%nat])
       /\ 725 = 800 /\ 75 = 800 /\ 600 + 600 = 600)
      \/ (buildColourBarLayout (Bitmap 1%nat) 2%nat "left" "top"
          = Returned (HBox [Bitmap 2%nat; Bitmap 1%nat])
          /\ 600 = 600 /\ 600 = 600 /\ 725 + 75 = 800)).
Proof.
  split; [reflexivity|].
  exact (colour_bar_layout_matches_sizes nat (Bitmap 1%nat) 2%nat "left" "top"
           800 600 eq_refl).
Defined.

(** Unless the layout is a grid with at most two canvases,
    [calculateOrthoCanvasSizes] calls [calcSizes] with the layout and
    the axes it was given and a width and height it has not enlarged. *)
Lemma calculateOrthoCanvasSizes_ok {AxisLen Sizes : Type}
  (calcSizes : string -> list (Z * Z) -> list AxisLen -> Z -> Z -> Sizes)
  axisLens width height canvasAxes showLabels layout :
  String.eqb layout "grid" && (Z.of_nat (List.length canvasAxes) <=? 2) = false ->
  exists w h,
    calculateOrthoCanvasSizes calcSizes axisLens width height canvasAxes
      showLabels layout
    = inr (calcSizes layout canvasAxes axisLens w h)
    /\ w <= width /\ h <= height
    /\ (showLabels = false -> w = width /\ h = height).
Proof.
  intros Hok. unfold calculateOrthoCanvasSizes. rewrite Hok.
  pose proof (Zle_0_nat (List.length canvasAxes)) as Hn.
  unfold LABEL_SIZE.
  destruct showLabels.
  - destruct (String.eqb layout "horizontal");
      [|destruct (String.eqb layout "vertical");
        [|destruct (String.eqb layout "grid")]];
      eexists; eexists; (split; [reflexivity|]);
      (split; [lia|split; [lia|discriminate]]).
  - exists width, height. split; [reflexivity|].
    split; [lia|split; [lia|]]. intros _. split; reflexivity.
Qed.

(** X10: [calculateOrthoCanvasSizes] raises [ValueError] exactly when
    the layout is 'grid' and at most two canvases are given.  Otherwise
    it returns what [calcSizes] returns for the same layout and axes and
    a width and height not larger than the given ones, and equal to them
    when the labels are hidden. *)
Theorem calculateOrthoCanvasSizes_error :
  forall (AxisLen Sizes : Type)
         (calcSizes : string -> list (Z * Z) -> list AxisLen -> Z -> Z -> Sizes)
         axisLens width height canvasAxes showLabels layout,
    (calculateOrthoCanvasSizes calcSizes axisLens width height canvasAxes
       showLabels layout = inl ValueError
     <-> layout = "grid"%string /\ (List.length canvasAxes <= 2)%nat)
    /\ (calculateOrthoCanvasSizes calcSizes axisLens width height canvasAxes
          showLabels layout <> inl ValueError ->
        exists w h,
          calculateOrthoCanvasSizes calcSizes axisLens width height canvasAxes
            showLabels layout
          = inr (calcSizes layout canvasAxes axisLens w h)
          /\ w <= width /\ h <= height
          /\ (showLabels = false -> w = width /\ h = height)).
Proof.
  intros AxisLen Sizes calcSizes axisLens width height canvasAxes showLabels layout.
  destruct (String.eqb layout "grid" && (Z.of_nat (List.length canvasAxes) <=? 2))
    eqn:Hguard.
  - assert (E : calculateOrthoCanvasSizes calcSizes axisLens width height canvasAxes
                  showLabels layout = inl ValueError).
    { unfold calculateOrthoCanvasSizes. rewrite Hguard. reflexivity. }
    apply andb_true_iff in Hguard. destruct Hguard as [Hg Hn].
    apply String.eqb_eq in Hg. apply Z.leb_le in Hn.
    split.
    + split; [intros _; split; [exact Hg|lia]|intros _; exact E].
    + intros Hne. contradiction.
  - destruct (calculateOrthoCanvasSizes_ok calcSizes axisLens width height
                canvasAxes showLabels layout Hguard) as [w [h [E Hwh]]].
    split.
    + split.
      * rewrite E. discriminate.
      * intros [Hg Hn]. exfalso.
        apply andb_false_iff in Hguard. destruct Hguard as [Hf|Hf].
        -- apply String.eqb_neq in Hf. contradiction.
        -- apply Z.leb_gt in Hf. lia.
    + intros _. exists w, h. split; [exact E|exact Hwh].
Qed.

(** X11: the ortho branch of [main] never makes
    [calculateOrthoCanvasSizes] raise, and its reordering for the grid
    never indexes past the end of the list: for every choice of shown
    canvases and every layout the sizes are computed.  The layout ends
    up as 'grid' only for a requested grid with all three canvases, and
    then the canvases come in the order Y, X, Z.  For every canvas,
    [zax = 3 - xax - yax] is the axis among 0, 1, 2 that is neither its
    horizontal nor its vertical axis, and no two canvases share it. *)
Theorem main_ortho_sizes_computed :
  forall (AxisLen Sizes : Type)
         (calcSizes : string -> list (Z * Z) -> list AxisLen -> Z -> Z -> Sizes)
         axisLens width height showX showY showZ showLabels layout,
  exists layout' axes sizes,
    mainOrthoSizes calcSizes axisLens width height showX showY showZ
      showLabels layout = inr (layout', axes, sizes)
    /\ (layout' = "grid"%string <->
        layout = "grid"%string /\ showX = true /\ showY = true /\ showZ = true)
    /\ (layout' = "grid"%string -> axes = [(0, 2); (1, 2); (0, 1)])
    /\ Forall (fun a => 0 <= zaxOf a <= 2 /\ zaxOf a <> fst a
                        /\ zaxOf a <> snd a /\ fst a <> snd a) axes
    /\ NoDup (map zaxOf axes).
Proof.
  intros AxisLen Sizes calcSizes axisLens width height showX showY showZ
    showLabels layout.
  assert (Haxes : forall axes,
             incl axes [(0, 2); (1, 2); (0, 1)] ->
             Forall (fun a => 0 <= zaxOf a <= 2 /\ zaxOf a <> fst a
                              /\ zaxOf a <> snd a /\ fst a <> snd a) axes).
  { intros axes Hincl. apply Forall_forall. intros a Ha.
    apply Hincl in Ha. simpl in Ha.
    destruct Ha as [<-|[<-|[<-|[]]]]; unfold zaxOf; cbn [fst snd]; lia. }
  unfold mainOrthoSizes.
  destruct (String.eqb layout "grid") eqn:Eg.
  - apply String.eqb_eq in Eg. subst layout.
    destruct showX, showY, showZ; cbn [canvasAxesOf app List.length Z.of_nat
      Pos.of_succ_nat Pos.succ Z.leb Z.compare Pos.compare Pos.compare_cont andb];
      cbn [String.eqb Ascii.eqb Bool.eqb nth_error];
      match goal with
      | |- context [calculateOrthoCanvasSizes ?c ?l ?w ?h ?a ?s ?lay] =>
          destruct (calculateOrthoCanvasSizes_ok c l w h a s lay eq_refl)
            as [w' [h' [E _]]]; rewrite E
      end;
      eexists; eexists; eexists; (split; [reflexivity|]);
      (split; [split; [intros H; try discriminate H; auto
                      |intros [_ [Hx [Hy Hz]]]; try discriminate; reflexivity]|]);
      (split; [intros H; try discriminate H; reflexivity|]);
      (split; [apply Haxes; intros a Ha; simpl in Ha |- *; tauto|]);
      repeat constructor; simpl; intuition discriminate.
  - assert (Hguard : forall axes : list (Z * Z),
               String.eqb layout "grid" && (Z.of_nat (List.length axes) <=? 2) = false).
    { intros axes. rewrite Eg. reflexivity. }
    cbn [andb]. rewrite Eg.
    destruct (calculateOrthoCanvasSizes_ok calcSizes axisLens width height
                (canvasAxesOf showX showY showZ) showLabels layout (Hguard _))
      as [w' [h' [E _]]]. rewrite E.
    apply String.eqb_neq in Eg.
    eexists; eexists; eexists. split; [reflexivity|].
    split; [split; [intros H; contradiction|intros [H _]; contradiction]|].
    split; [intros H; contradiction|].
    split.
    + apply Haxes. destruct showX, showY, showZ; intros a Ha;
        simpl in Ha |- *; tauto.
    + destruct showX, showY, showZ; repeat constructor; simpl;
        intuition discriminate.
Qed.

End Render.

(** * Mesh display options: [fsleyes/displaycontext/meshopts.py] *)

Module MeshOpts.

(** An option of a [props.Choice] property such as [vertexData]: [None]
    or a path. *)
Definition Choice : Type := option string.

Definition Choice_eqb (a b : Choice) : bool :=
  match a, b with
  | None, None => true
  | Some x, Some y => String.eqb x y
  | _, _ => false
  end.

(** [p in paths]. *)
Definition inChoices (p : Choice) (paths : list Choice) : bool :=
  existsb (Choice_eqb p) paths.

(** The choices of the two properties that [MeshOpts] extends. *)
Record MeshChoices : Type := {
  vertexSetChoices : list Choice;
  vertexDataChoices : list Choice
}.

(** The body shared by [addVertexDataOptions] and [addVertexSetOptions]:
    [paths + [p for p in newPaths if p not in paths]]. *)
Definition extendChoices (paths newPaths : list Choice) : list Choice :=
  paths ++ filter (fun p => negb (inChoices p paths)) newPaths.

Definition addVertexDataOptions (st : MeshChoices) (paths : list Choice) : MeshChoices :=
  {| vertexSetChoices := vertexSetChoices st;
     vertexDataChoices := extendChoices (vertexDataChoices st) paths |}.

Definition addVertexSetOptions (st : MeshChoices) (paths : list Choice) : MeshChoices :=
  {| vertexSetChoices := extendChoices (vertexSetChoices st) paths;
     vertexDataChoices := vertexDataChoices st |}.

(** The choices declared for [coordSpace]. *)
Definition coordSpaceChoices : list string :=
  ["torig"; "affine"; "pixdim"; "pixdim-flip"; "id"].

Inductive SpaceError : Type :=
| InvalidSpace (space : string).

(** [normaliseSpace], with the value of [self.coordSpace] as an argument. *)
Definition normaliseSpace (coordSpace space : string) : SpaceError + string :=
  if negb (existsb (String.eqb space) ["world"; "display"; "mesh"]) then
    inl (InvalidSpace space)
  else
    let space := if String.eqb space "mesh" then coordSpace else space in
    let space := if String.eqb space "torig" then "affine" else space in
    inr space.

Section TransformCoords.

(** Coordinates, and the [transformCoords] method of the reference
    image's display options, stay abstract. *)
Variable Coords : Type.
Variable refTransformCoords : string -> string -> Coords -> Coords.

(** [transformCoords]: [refImage] says whether a reference image is
    selected. *)
Definition transformCoords (coordSpace : string) (refImage : bool)
  (coords : Coords) (from_ to : string) : SpaceError + Coords :=
  match normaliseSpace coordSpace from_ with
  | inl e => inl e
  | inr from_ =>
      match normaliseSpace coordSpace to with
      | inl e => inl e
      | inr to =>
          if negb refImage then inr coords
          else inr (refTransformCoords from_ to coords)
      end
  end.

End TransformCoords.

Arguments transformCoords {Coords} refTransformCoords coordSpace refImage coords from_ to.

(** An overlay of the overlay list: its identity and whether it is a
    [Nifti] instance. *)
Record Overlay : Type := {
  ovlId : nat;
  isNifti : bool
}.

(** The [refImage] property: its value ([None] or an overlay) and its
    choices. *)
Record RefImage : Type := {
  refImage : option nat;
  refImageChoices : list (option nat)
}.

Definition optId_eqb (a b : option nat) : bool :=
  match a, b with
  | None, None => true
  | Some x, Some y => Nat.eqb x y
  | _, _ => false
  end.

(** [__overlayListChanged], on the value and the choices of [refImage]:
    [self] is the mesh overlay and [overlays] the ordered overlays. *)
Definition overlayListChanged (self : nat) (overlays : list Overlay)
  (st : RefImage) : RefImage :=
  let imgVal := refImage st in
  if negb (existsb (fun o => Nat.eqb self (ovlId o)) overlays) then st
  else
    let imgOptions :=
      None :: map (fun o => Some (ovlId o)) (filter isNifti overlays) in
    {| refImage := if existsb (optId_eqb imgVal) imgOptions then imgVal else None;
       refImageChoices := imgOptions |}.

Lemma Choice_eqb_eq a b : Choice_eqb a b = true <-> a = b.
Proof.
  destruct a as [x|], b as [y|]; simpl; try (split; congruence).
  rewrite String.eqb_eq. split; congruence.
Qed.

Lemma optId_eqb_eq a b : optId_eqb a b = true <-> a = b.
Proof.
  destruct a as [x|], b as [y|]; simpl; try (split; congruence).
  rewrite Nat.eqb_eq. split; congruence.
Qed.

Lemma inChoices_In p paths : inChoices p paths = true <-> In p paths.
Proof.
  unfold inChoices. rewrite existsb_exists. split.
  - intros [q [Hq E]]. apply Choice_eqb_eq in E. now subst q.
  - intros H. exists p. split; [exact H|now apply Choice_eqb_eq].
Qed.

Lemma inChoices_not_In p paths : inChoices p paths = false <-> ~ In p paths.
Proof.
  rewrite <- inChoices_In. destruct (inChoices p paths); split; congruence.
Qed.

Lemma extendChoices_In p paths newPaths :
  In p (extendChoices paths newPaths) <-> In p paths \/ In p newPaths.
Proof.
  unfold extendChoices. rewrite in_app_iff, filter_In, negb_true_iff.
  rewrite inChoices_not_In. split.
  - intros [H|[H _]]; auto.
  - intros [H|H]; [now left|].
    destruct (inChoices p paths) eqn:E.
    + left. now apply inChoices_In.
    + right. split; [exact H|]. now apply inChoices_not_In.
Qed.

(** Paths that are all among the choices add nothing. *)
Lemma extendChoices_known paths newPaths :
  (forall p, In p newPaths -> In p paths) ->
  extendChoices paths newPaths = paths.
Proof.
  intros Hall. unfold extendChoices.
  assert (E : filter (fun p => negb (inChoices p paths)) newPaths = []).
  { induction newPaths as [|q l IH]; [reflexivity|]. simpl.
    assert (Hq : inChoices q paths = true)
      by (apply inChoices_In, Hall; now left).
    rewrite Hq. simpl. apply IH. intros p Hp. apply Hall. now right. }
  rewrite E. apply app_nil_r.
Qed.

(** X12: [addVertexDataOptions] keeps the existing choices where they
    are and appends new ones: afterwards the choices are the old ones
    followed by further entries, they hold exactly the old choices and
    the given paths, adding the same paths a second time changes
    nothing, choices without repetition stay so when the given paths do
    not repeat, and the choices of [vertexSet] are untouched. *)
Theorem addVertexDataOptions_extends :
  forall st paths,
    let st' := addVertexDataOptions st paths in
    (exists added, vertexDataChoices st' = vertexDataChoices st ++ added)
    /\ (forall p, In p (vertexDataChoices st') <->
                  In p (vertexDataChoices st) \/ In p paths)
    /\ addVertexDataOptions st' paths = st'
    /\ (NoDup (vertexDataChoices st) -> NoDup paths ->
        NoDup (vertexDataChoices st'))
    /\ vertexSetChoices st' = vertexSetChoices st.
Proof.
  intros st paths. cbn zeta. unfold addVertexDataOptions. cbn [vertexDataChoices vertexSetChoices].
  split; [eexists; reflexivity|].
  split; [intros p; apply extendChoices_In|].
  split.
  - f_equal. apply extendChoices_known.
    intros p Hp. apply extendChoices_In. now right.
  - split; [|reflexivity].
    intros Hold Hnew. unfold extendChoices.
    apply NoDup_app; [exact Hold|now apply NoDup_filter|].
    intros p Hp Hq. apply filter_In in Hq. destruct Hq as [_ Hq].
    apply negb_true_iff, inChoices_not_In in Hq. contradiction.
Qed.

(** X13: [addVertexSetOptions] does the same for the choices of
    [vertexSet] and leaves those of [vertexData] alone; the two methods
    commute. *)
Theorem addVertexSetOptions_extends :
  forall st paths,
    let st' := addVertexSetOptions st paths in
    (exists added, vertexSetChoices st' = vertexSetChoices st ++ added)
    /\ (forall p, In p (vertexSetChoices st') <->
                  In p (vertexSetChoices st) \/ In p paths)
    /\ addVertexSetOptions st' paths = st'
    /\ vertexDataChoices st' = vertexDataChoices st
    /\ (forall dataPaths,
          addVertexDataOptions st' dataPaths
          = addVertexSetOptions (addVertexDataOptions st dataPaths) paths).
Proof.
  intros st paths. cbn zeta. unfold addVertexSetOptions, addVertexDataOptions.
  cbn [vertexDataChoices vertexSetChoices].
  split; [eexists; reflexivity|].
  split; [intros p; apply extendChoices_In|].
  split.
  - f_equal. apply extendChoices_known.
    intros p Hp. apply extendChoices_In. now right.
  - split; [reflexivity|]. intros dataPaths. reflexivity.
Qed.

(** X14: a path that is new to the choices is appended as often as it
    is given: [addVertexDataOptions] filters the given paths against
    the old choices only, never against each other. *)
Theorem addVertexDataOptions_keeps_repeats :
  forall st paths p,
    ~ In p (vertexDataChoices st) ->
    filter (Choice_eqb p) (vertexDataChoices (addVertexDataOptions st paths))
    = filter (Choice_eqb p) paths.
Proof.
  intros st paths p Hnew. unfold addVertexDataOptions. cbn [vertexDataChoices].
  unfold extendChoices. rewrite filter_app.
  assert (E : filter (Choice_eqb p) (vertexDataChoices st) = []).
  { induction (vertexDataChoices st) as [|q l IH]; [reflexivity|]. simpl.
    destruct (Choice_eqb p q) eqn:Eq.
    - apply Choice_eqb_eq in Eq. subst q. exfalso. apply Hnew. now left.
    - apply IH. intros H. apply Hnew. now right. }
  rewrite E. cbn [app].
  induction paths as [|q l IH]; [reflexivity|]. simpl.
  destruct (Choice_eqb p q) eqn:Eq.
  - apply Choice_eqb_eq in Eq. subst q.
    apply inChoices_not_In in Hnew. rewrite Hnew. simpl.
    assert (Choice_eqb p p = true) as -> by now apply Choice_eqb_eq.
    now rewrite IH.
  - destruct (negb (inChoices q (vertexDataChoices st))); simpl;
      [rewrite Eq|]; exact IH.
Qed.

Lemma addVertexDataOptions_keeps_repeats_witness :
  ~ In (Some "a.vtk") [None]
  /\ vertexDataChoices
       (addVertexDataOptions
          {| vertexSetChoices := [None]; vertexDataChoices := [None] |}
          [Some "a.vtk"; Some "a.vtk"])
     = [None; Some "a.vtk"; Some "a.vtk"]
  /\ filter (Choice_eqb (Some "a.vtk"))
       (vertexDataChoices
          (addVertexDataOptions
             {| vertexSetChoices := [None]; vertexDataChoices := [None] |}
             [Some "a.vtk"; Some "a.vtk"]))
     = filter (Choice_eqb (Some "a.vtk")) [Some "a.vtk"; Some "a.vtk"].
Proof.
  assert (Hnew : ~ In (Some "a.vtk") [None : Choice]).
  { intros [H|[]]. discriminate H. }
  split; [exact Hnew|]. split; [reflexivity|].
  exact (addVertexDataOptions_keeps_repeats
           {| vertexSetChoices := [None]; vertexDataChoices := [None] |}
           [Some "a.vtk"; Some "a.vtk"] (Some "a.vtk") Hnew).
Defined.

Definition validSpaces : list string := ["world"; "display"; "mesh"].

(** The spaces [NiftiOpts.getTransform] is handed. *)
Definition referenceSpaces : list string :=
  ["world"; "display"; "affine"; "pixdim"; "pixdim-flip"; "id"].

Lemma normaliseSpace_valid coordSpace space :
  In space validSpaces ->
  normaliseSpace coordSpace space
  = inr (if String.eqb space "mesh"
         then (if String.eqb coordSpace "torig" then "affine" else coordSpace)
         else space).
Proof.
  intros [<-|[<-|[<-|[]]]]; reflexivity.
Qed.

Lemma normaliseSpace_invalid coordSpace space :
  ~ In space validSpaces ->
  normaliseSpace coordSpace space = inl (InvalidSpace space).
Proof.
  intros Hno. unfold normaliseSpace.
  assert (E : existsb (String.eqb space) ["world"; "display"; "mesh"] = false).
  { apply not_true_iff_false. intros H. apply existsb_exists in H.
    destruct H as [v [Hv Ev]]. apply String.eqb_eq in Ev. subst v.
    now apply Hno. }
  rewrite E. reflexivity.
Qed.

Lemma validSpaces_dec space : In space validSpaces \/ ~ In space validSpaces.
Proof.
  destruct (in_dec string_dec space validSpaces); [now left|now right].
Qed.

Lemma normaliseSpace_reference coordSpace space r :
  In coordSpace coordSpaceChoices ->
  normaliseSpace coordSpace space = inr r ->
  In space validSpaces /\ In r referenceSpaces.
Proof.
  intros Hcs Hr.
  destruct (validSpaces_dec space) as [Hv|Hv].
  - split; [exact Hv|].
    rewrite (normaliseSpace_valid _ _ Hv) in Hr. inversion Hr; subst r.
    destruct Hv as [<-|[<-|[<-|[]]]]; cbn [String.eqb Ascii.eqb Bool.eqb];
      try (simpl; tauto).
    destruct Hcs as [<-|[<-|[<-|[<-|[<-|[]]]]]]; simpl; tauto.
  - rewrite (normaliseSpace_invalid _ _ Hv) in Hr. discriminate.
Qed.

(** X15: [normaliseSpace] accepts exactly 'world', 'display' and 'mesh'
    and raises [ValueError] for everything else, the names of the
    [coordSpace] choices ('torig', 'affine', ...) included.  With
    [coordSpace] one of its declared choices, an accepted space comes
    out as one of 'world', 'display', 'affine', 'pixdim', 'pixdim-flip'
    and 'id': never as 'mesh' and never as 'torig'. *)
Theorem normaliseSpace_spaces :
  forall coordSpace space,
    In coordSpace coordSpaceChoices ->
    (normaliseSpace coordSpace space = inl (InvalidSpace space)
     <-> ~ In space validSpaces)
    /\ (forall r, normaliseSpace coordSpace space = inr r ->
                  In space validSpaces /\ In r referenceSpaces
                  /\ r <> "mesh" /\ r <> "torig")
    /\ (forall s, In s coordSpaceChoices ->
                  normaliseSpace coordSpace s = inl (InvalidSpace s)).
Proof.
  intros coordSpace space Hcs. split; [|split].
  - split.
    + intros E Hv. rewrite (normaliseSpace_valid _ _ Hv) in E. discriminate.
    + apply normaliseSpace_invalid.
  - intros r Hr.
    destruct (normaliseSpace_reference _ _ _ Hcs Hr) as [Hv Href].
    split; [exact Hv|]. split; [exact Href|].
    split; intros ->; simpl in Href; intuition discriminate.
  - intros s Hs. apply normaliseSpace_invalid.
    destruct Hs as [<-|[<-|[<-|[<-|[<-|[]]]]]]; simpl; intuition discriminate.
Qed.

Lemma normaliseSpace_spaces_witness :
  In "torig" coordSpaceChoices
  /\ normaliseSpace "torig" "mesh" = inr "affine"
  /\ normaliseSpace "torig" "affine" = inl (InvalidSpace "affine").
Proof.
  assert (H : In "torig" coordSpaceChoices) by (simpl; tauto).
  split; [exact H|]. split; [reflexivity|].
  apply (proj2 (proj2 (normaliseSpace_spaces "torig" "affine" H))).
  simpl; tauto.
Defined.

(** X16: [transformCoords] checks both spaces before anything else: it
    returns a result only when [from_] and [to] are both among 'world',
    'display' and 'mesh', also when no reference image is selected.
    Without a reference image the coordinates come back unchanged; with
    one, the reference image's method is called once, with two spaces
    that are neither 'mesh' nor 'torig'. *)
Theorem transformCoords_checks_spaces :
  forall (Coords : Type) (refTransformCoords : string -> string -> Coords -> Coords)
         coordSpace refImage coords from_ to,
    In coordSpace coordSpaceChoices ->
    ((exists r, transformCoords refTransformCoords coordSpace refImage coords from_ to
                = inr r)
     <-> In from_ validSpaces /\ In to validSpaces)
    /\ (refImage = false -> In from_ validSpaces -> In to validSpaces ->
        transformCoords refTransformCoords coordSpace refImage coords from_ to
        = inr coords)
    /\ (refImage = true -> In from_ validSpaces -> In to validSpaces ->
        exists f t,
          transformCoords refTransformCoords coordSpace refImage coords from_ to
          = inr (refTransformCoords f t coords)
          /\ In f referenceSpaces /\ In t referenceSpaces).
Proof.
  intros Coords refTransformCoords coordSpace refImage coords from_ to Hcs.
  unfold transformCoords. split; [|split].
  - split.
    + intros [r Hr].
      destruct (normaliseSpace coordSpace from_) as [e|f] eqn:Ef; [discriminate|].
      destruct (normaliseSpace coordSpace to) as [e|t] eqn:Et; [discriminate|].
      split; [exact (proj1 (normaliseSpace_reference _ _ _ Hcs Ef))
             |exact (proj1 (normaliseSpace_reference _ _ _ Hcs Et))].
    + intros [Hf Ht].
      rewrite (normaliseSpace_valid _ _ Hf), (normaliseSpace_valid _ _ Ht).
      destruct (negb refImage); eexists; reflexivity.
  - intros -> Hf Ht.
    rewrite (normaliseSpace_valid _ _ Hf), (normaliseSpace_valid _ _ Ht).
    reflexivity.
  - intros -> Hf Ht.
    destruct (normaliseSpace coordSpace from_) as [e|f] eqn:Ef;
      [rewrite (normaliseSpace_valid _ _ Hf) in Ef; discriminate|].
    destruct (normaliseSpace coordSpace to) as [e|t] eqn:Et;
      [rewrite (normaliseSpace_valid _ _ Ht) in Et; discriminate|].
    exists f, t. split; [reflexivity|].
    split; [exact (proj2 (normaliseSpace_reference _ _ _ Hcs Ef))
           |exact (proj2 (normaliseSpace_reference _ _ _ Hcs Et))].
Qed.

Lemma transformCoords_checks_spaces_witness :
  In "pixdim-flip" coordSpaceChoices
  /\ transformCoords (fun _ _ (c : nat) => S c) "pixdim-flip" false 5%nat "display" "mesh"
     = inr 5%nat.
Proof.
  assert (H : In "pixdim-flip" coordSpaceChoices) by (simpl; tauto).
  split; [exact H|].
  apply (proj1 (proj2 (transformCoords_checks_spaces nat (fun _ _ c => S c)
                         "pixdim-flip" false 5%nat "display" "mesh" H)));
    [reflexivity|simpl; tauto|simpl; tauto].
Defined.

Lemma optId_in v l : existsb (optId_eqb v) l = true <-> In v l.
Proof.
  rewrite existsb_exists. split.
  - intros [w [Hw E]]. apply optId_eqb_eq in E. now subst w.
  - intros H. exists v. split; [exact H|now apply optId_eqb_eq].
Qed.

Lemma self_in self overlays :
  existsb (fun o => Nat.eqb self (ovlId o)) overlays = true
  <-> In self (map ovlId overlays).
Proof.
  rewrite existsb_exists, in_map_iff. split.
  - intros [o [Ho E]]. apply Nat.eqb_eq in E. exists o. split; [now symmetry|exact Ho].
  - intros [o [E Ho]]. exists o. split; [exact Ho|]. apply Nat.eqb_eq. now symmetry.
Qed.

(** X17: when the overlay list changes and the mesh is still in it,
    [__overlayListChanged] leaves [refImage] on one of its new choices:
    [None], or a [Nifti] overlay that is in the list.  It keeps the old
    reference image when that is still such an overlay and resets it to
    [None] otherwise; running it again changes nothing.  When the mesh
    itself is gone from the list, value and choices are left as they
    were. *)
Theorem overlayListChanged_refImage :
  forall self overlays st,
    let st' := overlayListChanged self overlays st in
    (In self (map ovlId overlays) ->
     In (refImage st') (refImageChoices st')
     /\ (forall i, refImage st' = Some i ->
           exists o, In o overlays /\ ovlId o = i /\ isNifti o = true)
     /\ (forall o, In o overlays -> isNifti o = true ->
           refImage st = Some (ovlId o) -> refImage st' = refImage st)
     /\ (refImage st' = refImage st \/ refImage st' = None)
     /\ overlayListChanged self overlays st' = st')
    /\ (~ In self (map ovlId overlays) -> st' = st).
Proof.
  intros self overlays st. cbn zeta. unfold overlayListChanged.
  destruct (existsb (fun o => Nat.eqb self (ovlId o)) overlays) eqn:Eself.
  - cbn [negb]. split; [|intros Hno; exfalso; apply Hno; now apply self_in].
    intros _. cbn [refImage refImageChoices].
    set (opts := None :: map (fun o => Some (ovlId o)) (filter isNifti overlays)).
    assert (Hval : In (if existsb (optId_eqb (refImage st)) opts
                       then refImage st else None) opts).
    { destruct (existsb (optId_eqb (refImage st)) opts) eqn:E.
      - now apply optId_in.
      - now left. }
    split; [exact Hval|]. split; [|split; [|split]].
    + intros i Hi. rewrite Hi in Hval. destruct Hval as [H|H]; [discriminate|].
      apply in_map_iff in H. destruct H as [o [Ho Hin]].
      apply filter_In in Hin. destruct Hin as [Hin Hn].
      exists o. split; [exact Hin|]. split; [congruence|exact Hn].
    + intros o Ho Hn Hst.
      assert (E : existsb (optId_eqb (refImage st)) opts = true).
      { apply optId_in. right. rewrite Hst. apply in_map_iff.
        exists o. split; [reflexivity|]. apply filter_In. now split. }
      now rewrite E.
    + destruct (existsb (optId_eqb (refImage st)) opts); [now left|now right].
    + apply optId_in in Hval. rewrite Hval. reflexivity.
  - cbn [negb]. split; [|reflexivity].
    intros Hin. apply self_in in Hin. congruence.
Qed.

Lemma overlayListChanged_refImage_witness :
  In 0%nat (map ovlId [ {| ovlId := 0; isNifti := false |};
                        {| ovlId := 1; isNifti := true |} ])
  /\ overlayListChanged 0
       [ {| ovlId := 0; isNifti := false |}; {| ovlId := 1; isNifti := true |} ]
       {| refImage := Some 2%nat; refImageChoices := [None; Some 2%nat] |}
     = {| refImage := None; refImageChoices := [None; Some 1%nat] |}
  /\ In (refImage
           (overlayListChanged 0
              [ {| ovlId := 0; isNifti := false |}; {| ovlId := 1; isNifti := true |} ]
              {| refImage := Some 2%nat; refImageChoices := [None; Some 2%nat] |}))
        (refImageChoices
           (overlayListChanged 0
              [ {| ovlId := 0; isNifti := false |}; {| ovlId := 1; isNifti := true |} ]
              {| refImage := Some 2%nat; refImageChoices := [None; Some 2%nat] |})).
Proof.
  assert (H : In 0%nat (map ovlId [ {| ovlId := 0; isNifti := false |};
                                    {| ovlId := 1; isNifti := true |} ]))
    by (simpl; tauto).
  split; [exact H|]. split; [reflexivity|].
  exact (proj1 (proj1 (overlayListChanged_refImage 0
           [ {| ovlId := 0; isNifti := false |}; {| ovlId := 1; isNifti := true |} ]
           {| refImage := Some 2%nat; refImageChoices := [None; Some 2%nat] |}) H)).
Defined.

End MeshOpts.

(** * Tractogram display options: [fsleyes/displaycontext/tractogramopts.py] *)

Module TractogramOpts.

(** A value of [colourMode] or [clipMode]: [None], a string
    ('orientation' or the name of a vertex data set) or an [Image]
    overlay. *)
Inductive ModeValue : Type :=
| NoMode
| Named (name : string)
| ImageMode (image : nat).

(** Strings compare by value, [Image] objects by identity. *)
Definition ModeValue_eqb (a b : ModeValue) : bool :=
  match a, b with
  | NoMode, NoMode => true
  | Named x, Named y => String.eqb x y
  | ImageMode i, ImageMode j => Nat.eqb i j
  | _, _ => false
  end.

Definition inModes (m : ModeValue) (options : list ModeValue) : bool :=
  existsb (ModeValue_eqb m) options.

(** An overlay of the display context: its identity and whether it is
    an [fslimage.Image]. *)
Record Overlay : Type := {
  ovlId : nat;
  isImage : bool
}.

(** The two properties of a [TractogramOpts], each with its choices. *)
Record Modes : Type := {
  colourMode : ModeValue;
  clipMode : ModeValue;
  colourChoices : list ModeValue;
  clipChoices : list ModeValue
}.

(** [isinstance(cmode, fslimage.Image)]. *)
Definition isImageMode (m : ModeValue) : bool :=
  match m with ImageMode _ => true | _ => false end.

(** [cmode in ovl.vertexDataSets()]: the data sets are named by
    strings. *)
Definition inVertexData (m : ModeValue) (vdata : list string) : bool :=
  match m with
  | Named name => existsb (String.eqb name) vdata
  | _ => false
  end.

Definition effectiveColourMode (vdata : list string) (st : Modes) : string :=
  let cmode := colourMode st in
  if isImageMode cmode then "imageData"
  else if inVertexData cmode vdata then "vertexData"
  else "orientation".

Definition effectiveClipMode (vdata : list string) (st : Modes) : string :=
  let cmode := clipMode st in
  if isImageMode cmode then "imageData"
  else if inVertexData cmode vdata then "vertexData"
  else "none".

(** The array [__getData] returns: the data of an image, or a vertex
    data set of the tractogram. *)
Inductive Data : Type :=
| ImageData (image : nat)
| VertexData (name : string).

(** [__getData]: [None] for 'orientation' or an invalid value. *)
Definition getData (vdata : list string) (mode : ModeValue) : option Data :=
  match mode with
  | ImageMode image => Some (ImageData image)
  | Named name => if existsb (String.eqb name) vdata then Some (VertexData name) else None
  | NoMode => None
  end.

(** A data range: the constant [(0, 1)], or the minimum and maximum of
    an array (floating point, left abstract). *)
Inductive Range : Type :=
| ZeroOne
| MinMax (data : Data).

Definition getDataRange (vdata : list string) (st : Modes) : Range :=
  match getData vdata (colourMode st) with
  | None => ZeroOne
  | Some data => MinMax data
  end.

(** [getClippingRange]: [None], or the range of the clipping data. *)
Definition getClippingRange (vdata : list string) (st : Modes) : option Range :=
  let colourMode := colourMode st in
  let clipMode := clipMode st in
  if inModes clipMode [NoMode; colourMode] then None
  else
    match getData vdata clipMode with
    | None => None
    | Some data => Some (MinMax data)
    end.

(** [updateColourClipModes]: [overlays] are the ordered overlays of the
    display context, [vdata] the vertex data sets of the tractogram. *)
Definition updateColourClipModes (overlays : list Overlay) (vdata : list string)
  (st : Modes) : Modes :=
  let colour := colourMode st in
  let clip := clipMode st in
  let overlays := map (fun o => ImageMode (ovlId o)) (filter isImage overlays) in
  let colourOptions := [Named "orientation"] ++ overlays ++ map Named vdata in
  let clipOptions := [NoMode] ++ overlays ++ map Named vdata in
  {| colourMode := if inModes colour colourOptions then colour else Named "orientation";
     clipMode := if inModes clip clipOptions then clip else NoMode;
     colourChoices := colourOptions;
     clipChoices := clipOptions |}.

Lemma ModeValue_eqb_eq a b : ModeValue_eqb a b = true <-> a = b.
Proof.
  destruct a as [|x|i], b as [|y|j]; simpl; try (split; congruence).
  - rewrite String.eqb_eq. split; congruence.
  - rewrite Nat.eqb_eq. split; congruence.
Qed.

Lemma inModes_In m options : inModes m options = true <-> In m options.
Proof.
  unfold inModes. rewrite existsb_exists. split.
  - intros [q [Hq E]]. apply ModeValue_eqb_eq in E. now subst q.
  - intros H. exists m. split; [exact H|now apply ModeValue_eqb_eq].
Qed.

Lemma named_in name vdata :
  existsb (String.eqb name) vdata = true <-> In name vdata.
Proof.
  rewrite existsb_exists. split.
  - intros [q [Hq E]]. apply String.eqb_eq in E. now subst q.
  - intros H. exists name. split; [exact H|apply String.eqb_refl].
Qed.

(** The value a property is left with is one of the options. *)
Lemma kept_or_default m options default :
  In default options ->
  In (if inModes m options then m else default) options.
Proof.
  intros Hd. destruct (inModes m options) eqn:E; [now apply inModes_In|exact Hd].
Qed.

(** What an option of either property can be. *)
Lemma in_options default (imgs : list ModeValue) vdata m :
  In m ([default] ++ imgs ++ map Named vdata) ->
  m = default \/ In m imgs \/ exists n, m = Named n /\ In n vdata.
Proof.
  intros H. apply in_app_or in H. destruct H as [[H|[]]|H]; [now left|].
  apply in_app_or in H. destruct H as [H|H]; [right; now left|].
  apply in_map_iff in H. destruct H as [n [E Hn]].
  right. right. exists n. split; [now symmetry|exact Hn].
Qed.

(** X18: after [updateColourClipModes], [colourMode] is one of the new
    colour choices and [clipMode] one of the new clip choices; each
    keeps its old value when that is still a choice and falls back to
    its default ('orientation', [None]) otherwise; a mode that is an
    image is an [Image] overlay of the display context; a second call
    with the same overlays and data sets changes nothing. *)
Theorem updateColourClipModes_valid :
  forall overlays vdata st,
    let st' := updateColourClipModes overlays vdata st in
    In (colourMode st') (colourChoices st')
    /\ In (clipMode st') (clipChoices st')
    /\ (colourMode st' = colourMode st \/ colourMode st' = Named "orientation")
    /\ (clipMode st' = clipMode st \/ clipMode st' = NoMode)
    /\ (forall i, colourMode st' = ImageMode i \/ clipMode st' = ImageMode i ->
          exists o, In o overlays /\ ovlId o = i /\ isImage o = true)
    /\ updateColourClipModes overlays vdata st' = st'.
Proof.
  intros overlays vdata st. cbn zeta. unfold updateColourClipModes.
  cbn [colourMode clipMode colourChoices clipChoices].
  set (imgs := map (fun o => ImageMode (ovlId o)) (filter isImage overlays)).
  set (copts := [Named "orientation"] ++ imgs ++ map Named vdata).
  set (lopts := [NoMode] ++ imgs ++ map Named vdata).
  assert (Hc : In (if inModes (colourMode st) copts then colourMode st
                   else Named "orientation") copts)
    by (apply kept_or_default; now left).
  assert (Hl : In (if inModes (clipMode st) lopts then clipMode st else NoMode) lopts)
    by (apply kept_or_default; now left).
  assert (Himg : forall i, In (ImageMode i) imgs ->
                   exists o, In o overlays /\ ovlId o = i /\ isImage o = true).
  { intros i Hi. apply in_map_iff in Hi. destruct Hi as [o [E Ho]].
    apply filter_In in Ho. destruct Ho as [Ho Hflag].
    exists o. split; [exact Ho|]. split; [congruence|exact Hflag]. }
  split; [exact Hc|]. split; [exact Hl|].
  split; [destruct (inModes (colourMode st) copts); [now left|now right]|].
  split; [destruct (inModes (clipMode st) lopts); [now left|now right]|].
  split.
  - intros i [Hi|Hi]; apply Himg.
    + rewrite Hi in Hc. apply in_options in Hc.
      destruct Hc as [H|[H|[n [E _]]]]; [discriminate|exact H|discriminate].
    + rewrite Hi in Hl. apply in_options in Hl.
      destruct Hl as [H|[H|[n [E _]]]]; [discriminate|exact H|discriminate].
  - apply inModes_In in Hc, Hl. rewrite Hc, Hl. reflexivity.
Qed.

(** X19: [getDataRange] falls back to (0, 1) exactly when
    [effectiveColourMode] is 'orientation'; it is the range of an image
    exactly for 'imageData' and of a vertex data set exactly for
    'vertexData'.  In the same way [__getData] has data for [clipMode]
    exactly when [effectiveClipMode] is not 'none'. *)
Theorem effective_mode_matches_data :
  forall vdata st,
    (getDataRange vdata st = ZeroOne <-> effectiveColourMode vdata st = "orientation")
    /\ ((exists i, getDataRange vdata st = MinMax (ImageData i))
        <-> effectiveColourMode vdata st = "imageData")
    /\ ((exists n, getDataRange vdata st = MinMax (VertexData n))
        <-> effectiveColourMode vdata st = "vertexData")
    /\ (getData vdata (clipMode st) = None <-> effectiveClipMode vdata st = "none").
Proof.
  intros vdata st.
  unfold getDataRange, effectiveColourMode, effectiveClipMode, getData,
    isImageMode, inVertexData.
  destruct (colourMode st) as [|n|i], (clipMode st) as [|m|j];
    try destruct (existsb (String.eqb n) vdata);
    try destruct (existsb (String.eqb m) vdata);
    repeat split; intros H; try discriminate H; try reflexivity;
    try (eexists; reflexivity);
    try (inversion H; discriminate).
Qed.

(** X20: when [getClippingRange] returns a range, it is the range of the
    data [__getData] has for [clipMode], [clipMode] is neither [None]
    nor equal to [colourMode], and the data is not the data the colours
    are taken from.  With [clipMode] equal to [colourMode] it returns
    [None]. *)
Theorem clipping_data_differs :
  forall vdata st,
    (forall r, getClippingRange vdata st = Some r ->
       exists data,
         r = MinMax data
         /\ getData vdata (clipMode st) = Some data
         /\ clipMode st <> NoMode
         /\ clipMode st <> colourMode st
         /\ getData vdata (colourMode st) <> Some data)
    /\ (clipMode st = colourMode st -> getClippingRange vdata st = None).
Proof.
  intros vdata st. unfold getClippingRange. split.
  - intros r Hr.
    destruct (inModes (clipMode st) [NoMode; colourMode st]) eqn:Ein; [discriminate|].
    destruct (getData vdata (clipMode st)) as [data|] eqn:Ed; [|discriminate].
    inversion Hr; subst r. exists data. split; [reflexivity|]. split; [reflexivity|].
    assert (Hno : ~ In (clipMode st) [NoMode; colourMode st]).
    { intros H. apply inModes_In in H. congruence. }
    assert (Hnone : clipMode st <> NoMode).
    { intros E. apply Hno. left. now symmetry. }
    assert (Hne : clipMode st <> colourMode st).
    { intros E. apply Hno. right. left. now symmetry. }
    split; [exact Hnone|]. split; [exact Hne|].
    intros Hc. apply Hne.
    unfold getData in Ed, Hc.
    destruct (clipMode st) as [|m|j], (colourMode st) as [|n|i];
      try destruct (existsb (String.eqb m) vdata);
      try destruct (existsb (String.eqb n) vdata);
      congruence.
  - intros E.
    assert (Hin : inModes (clipMode st) [NoMode; colourMode st] = true).
    { apply inModes_In. right. left. now symmetry. }
    now rewrite Hin.
Qed.

(** X21: after [updateColourClipModes], the tractogram is coloured by
    orientation exactly when [colourMode] is 'orientation' and no vertex
    data set bears that name: a data set called 'orientation' takes the
    place of orientation colouring. *)
Theorem orientation_can_be_shadowed :
  forall overlays vdata st,
    let st' := updateColourClipModes overlays vdata st in
    effectiveColourMode vdata st' = "orientation"
    <-> colourMode st' = Named "orientation" /\ ~ In "orientation" vdata.
Proof.
  intros overlays vdata st. cbn zeta.
  destruct (updateColourClipModes_valid overlays vdata st) as [Hc _].
  cbn zeta in Hc.
  set (st' := updateColourClipModes overlays vdata st) in *.
  assert (Hopts : colourChoices st'
                  = [Named "orientation"]
                      ++ map (fun o => ImageMode (ovlId o)) (filter isImage overlays)
                      ++ map Named vdata) by reflexivity.
  rewrite Hopts in Hc. clear Hopts. apply in_options in Hc.
  unfold effectiveColourMode, isImageMode, inVertexData.
  destruct (colourMode st') as [|n|i].
  - exfalso. destruct Hc as [H|[H|[x [E _]]]]; [discriminate| |discriminate].
    apply in_map_iff in H. destruct H as [x [E _]]. discriminate.
  - destruct (existsb (String.eqb n) vdata) eqn:En.
    + apply named_in in En. split; [discriminate|].
      intros [E Hno]. inversion E; subst n. contradiction.
    + split; [|reflexivity]. intros _.
      assert (Hn : ~ In n vdata).
      { intros H. apply named_in in H. congruence. }
      destruct Hc as [H|[H|[x [E Hx]]]].
      * inversion H; subst n. split; [reflexivity|exact Hn].
      * apply in_map_iff in H. destruct H as [x [E _]]. discriminate.
      * inversion E; subst x. contradiction.
  - split; [discriminate|]. intros [E _]. discriminate.
Qed.

End TractogramOpts.

(** * Lightbox scene options: [fsleyes/displaycontext/lightboxopts.py] *)

Module LightBoxOpts.

Local Open Scope Z_scope.

(** The two properties [_onPerformanceChange] assigns. *)
Record Rendering : Type := {
  renderMode : string;
  resolutionLimit : Z
}.

(** [_onPerformanceChange], with the value of [self.performance] as an
    argument; a value other than 1, 2, 3 or 4 assigns nothing. *)
Definition onPerformanceChange (performance : Z) (st : Rendering) : Rendering :=
  if performance =? 4 then
    {| renderMode := "onscreen"; resolutionLimit := 0 |}
  else if performance =? 3 then
    {| renderMode := "prerender"; resolutionLimit := 0 |}
  else if performance =? 2 then
    {| renderMode := "prerender"; resolutionLimit := 1 |}
  else if performance =? 1 then
    {| renderMode := "prerender"; resolutionLimit := 2 |}
  else st.

(** X22: for a performance setting from 1 to 4, [_onPerformanceChange]
    sets the resolution limit to max(0, 3 - performance), so a higher
    setting never gives a higher limit, and renders on screen only at
    setting 4 (pre-rendered below); the settings it arrives at do not
    depend on the earlier ones.  For any other value it leaves both
    properties as they were. *)
Theorem onPerformanceChange_settings :
  forall performance st,
    let st' := onPerformanceChange performance st in
    (1 <= performance <= 4 ->
     resolutionLimit st' = Z.max 0 (3 - performance)
     /\ renderMode st' = (if Z.eqb performance 4 then "onscreen"%string
                          else "prerender"%string)
     /\ (forall other, onPerformanceChange performance other = st')
     /\ (forall lower, 1 <= lower <= performance ->
           resolutionLimit st' <= resolutionLimit (onPerformanceChange lower st)))
    /\ (performance < 1 \/ 4 < performance -> st' = st).
Proof.
  intros performance st. cbn zeta. split.
  - intros Hp.
    assert (Hcases : performance = 1 \/ performance = 2 \/ performance = 3
                     \/ performance = 4) by lia.
    destruct Hcases as [-> | [-> | [-> | ->]]]; cbn;
      (split; [reflexivity|split; [reflexivity|split; [reflexivity|]]]);
      intros lower Hl;
      assert (Hlow : lower = 1 \/ lower = 2 \/ lower = 3 \/ lower = 4) by lia;
      destruct Hlow as [-> | [-> | [-> | ->]]]; cbn; lia.
  - intros Hout. unfold onPerformanceChange.
    destruct (performance =? 4) eqn:E4; [apply Z.eqb_eq in E4; lia|].
    destruct (performance =? 3) eqn:E3; [apply Z.eqb_eq in E3; lia|].
    destruct (performance =? 2) eqn:E2; [apply Z.eqb_eq in E2; lia|].
    destruct (performance =? 1) eqn:E1; [apply Z.eqb_eq in E1; lia|].
    reflexivity.
Qed.

Lemma onPerformanceChange_settings_witness :
  1 <= 2 <= 4
  /\ onPerformanceChange 2 {| renderMode := "onscreen"; resolutionLimit := 0 |}
     = {| renderMode := "prerender"; resolutionLimit := 1 |}
  /\ resolutionLimit
       (onPerformanceChange 2 {| renderMode := "onscreen"; resolutionLimit := 0 |})
     = Z.max 0 (3 - 2).
Proof.
  assert (H : 1 <= 2 <= 4) by lia.
  split; [exact H|]. split; [reflexivity|].
  exact (proj1 (proj1 (onPerformanceChange_settings 2
           {| renderMode := "onscreen"; resolutionLimit := 0 |}) H)).
Defined.

End LightBoxOpts.

(** * Reloading an overlay: [fsleyes/actions/reloadoverlay.py] *)

Module ReloadOverlay.

(** The selected overlay: its identity, whether its type is exactly
    [fslimage.Image], and its data source. *)
Record Overlay : Type := {
  ovlId : nat;
  isImage : bool;
  dataSource : option string
}.

Inductive Raised : Type :=
| RuntimeError
| ValueError.

(** [__selectedOverlayChanged]: the value assigned to [self.enabled];
    [fileExists] is [os.path.exists]. *)
Definition selectedOverlayChanged (fileExists : string -> bool)
  (ovl : option Overlay) : bool :=
  match ovl with
  | None => false
  | Some o =>
      match dataSource o with
      | None => false
      | Some path => isImage o && fileExists path
      end
  end.

(** [list.index]: the position of the first element equal to [x];
    [None] stands for the [ValueError] of a missing element. *)
Fixpoint index (x : nat) (l : list nat) : option nat :=
  match l with
  | [] => None
  | y :: l' => if Nat.eqb y x then Some 0%nat else option_map S (index x l')
  end.

(** [list.remove]: the list without the first element equal to [x]. *)
Fixpoint remove (x : nat) (l : list nat) : option (list nat) :=
  match l with
  | [] => None
  | y :: l' => if Nat.eqb y x then Some l' else option_map (cons y) (remove x l')
  end.

(** [list.insert] at a position that is not negative. *)
Definition insert (i : nat) (x : nat) (l : list nat) : list nat :=
  firstn i l ++ x :: skipn i l.

(** [__reloadOverlay], on the overlay list: [ovl] is the selected
    overlay, [reloaded] the identity of the [Image] created from the
    data source.  The steps in between read and write display
    properties only. *)
Definition reloadOverlay (ovl : option Overlay) (overlayList : list nat)
  (reloaded : nat) : Raised + list nat :=
  match ovl with
  | None => inl RuntimeError
  | Some o =>
      if negb (isImage o) then inl RuntimeError
      else
        match index (ovlId o) overlayList with
        | None => inl ValueError
        | Some idx =>
            match remove (ovlId o) overlayList with
            | None => inl ValueError
            | Some rest => inr (insert idx reloaded rest)
            end
        end
  end.

Lemma index_In x l : In x l -> exists i, index x l = Some i.
Proof.
  induction l as [|y l IH]; [intros []|]. simpl.
  destruct (Nat.eqb y x) eqn:E; [intros _; now exists 0%nat|].
  intros [H|H]; [apply Nat.eqb_neq in E; contradiction|].
  destruct (IH H) as [i Hi]. rewrite Hi. now exists (S i).
Qed.

(** The element found by [index] is the first one equal to [x]. *)
Lemma index_first x l i :
  index x l = Some i ->
  nth_error l i = Some x /\ (forall j, (j < i)%nat -> nth_error l j <> Some x).
Proof.
  revert i. induction l as [|y l IH]; intros i; [discriminate|]. simpl.
  destruct (Nat.eqb y x) eqn:E.
  - intros H. inversion H; subst i. apply Nat.eqb_eq in E. subst y.
    split; [reflexivity|]. intros j Hj. inversion Hj.
  - destruct (index x l) as [i'|]; [|discriminate]. simpl.
    intros H. inversion H; subst i.
    destruct (IH i' eq_refl) as [Hnth Hbefore]. split; [exact Hnth|].
    intros [|j] Hj; simpl.
    + apply Nat.eqb_neq in E. congruence.
    + apply Hbefore. apply Nat.succ_lt_mono. exact Hj.
Qed.

(** Removing the element and inserting another one at its position
    replaces it in place. *)
Lemma remove_insert x y l i :
  index x l = Some i ->
  exists rest,
    remove x l = Some rest
    /\ insert i y rest = firstn i l ++ y :: skipn (S i) l.
Proof.
  revert i. induction l as [|z l IH]; intros i; [discriminate|]. simpl.
  destruct (Nat.eqb z x).
  - intros H. inversion H; subst i. exists l. split; reflexivity.
  - destruct (index x l) as [i'|]; [|discriminate]. simpl.
    intros H. inversion H; subst i.
    destruct (IH i' eq_refl) as [rest [Hr Hi]].
    exists (z :: rest). rewrite Hr. split; [reflexivity|].
    unfold insert in *. simpl. now rewrite Hi.
Qed.

Lemma replaced_nth (l : list nat) i y :
  (i < List.length l)%nat ->
  let l' := firstn i l ++ y :: skipn (S i) l in
  List.length l' = List.length l
  /\ nth_error l' i = Some y
  /\ (forall j, j <> i -> nth_error l' j = nth_error l j).
Proof.
  revert i. induction l as [|z l IH]; intros i Hi; [inversion Hi|].
  cbn zeta. destruct i as [|i].
  - simpl. split; [reflexivity|]. split; [reflexivity|].
    intros [|j] Hj; [contradiction|reflexivity].
  - simpl in Hi. apply Nat.succ_lt_mono in Hi.
    destruct (IH i Hi) as [Hlen [Hnth Hother]]. cbn zeta in *.
    split; [|split].
    + change (S (List.length (firstn i l ++ y :: skipn (S i) l))
              = S (List.length l)).
      now rewrite Hlen.
    + exact Hnth.
    + intros [|j] Hj; [reflexivity|].
      change (nth_error (firstn i l ++ y :: skipn (S i) l) j = nth_error l j).
      apply Hother. congruence.
Qed.

(** An [Image] overlay of the list can be reloaded. *)
Lemma reloadOverlay_in_place_aux o overlayList reloaded :
  isImage o = true ->
  In (ovlId o) overlayList ->
  exists overlayList', reloadOverlay (Some o) overlayList reloaded = inr overlayList'.
Proof.
  intros Himg Hin.
  destruct (index_In _ _ Hin) as [idx Hidx].
  destruct (remove_insert _ reloaded _ _ Hidx) as [rest [Hrest _]].
  exists (insert idx reloaded rest).
  unfold reloadOverlay. rewrite Himg, Hidx, Hrest. reflexivity.
Qed.

(** X23: reloading an [Image] overlay that is in the overlay list puts
    the reloaded image at the position of the first occurrence of the
    old one: the list keeps its length, the reloaded image is at that
    position and every other position holds the overlay it held
    before. *)
Theorem reloadOverlay_in_place :
  forall o overlayList reloaded,
    isImage o = true ->
    In (ovlId o) overlayList ->
    exists idx overlayList',
      reloadOverlay (Some o) overlayList reloaded = inr overlayList'
      /\ nth_error overlayList idx = Some (ovlId o)
      /\ (forall j, (j < idx)%nat -> nth_error overlayList j <> Some (ovlId o))
      /\ List.length overlayList' = List.length overlayList
      /\ nth_error overlayList' idx = Some reloaded
      /\ (forall j, j <> idx -> nth_error overlayList' j = nth_error overlayList j).
Proof.
  intros o overlayList reloaded Himg Hin.
  destruct (index_In _ _ Hin) as [idx Hidx].
  destruct (remove_insert _ reloaded _ _ Hidx) as [rest [Hrest Hins]].
  destruct (index_first _ _ _ Hidx) as [Hnth Hfirst].
  assert (Hlt : (idx < List.length overlayList)%nat).
  { apply nth_error_Some. congruence. }
  destruct (replaced_nth overlayList idx reloaded Hlt) as [Hlen [Hnew Hother]].
  cbn zeta in *.
  exists idx, (firstn idx overlayList ++ reloaded :: skipn (S idx) overlayList).
  split.
  - unfold reloadOverlay. rewrite Himg, Hidx, Hrest, Hins. reflexivity.
  - repeat split; assumption.
Qed.

Lemma reloadOverlay_in_place_witness :
  isImage {| ovlId := 7; isImage := true; dataSource := Some "t1.nii.gz" |} = true
  /\ In 7%nat [3; 7; 5; 7]%nat
  /\ reloadOverlay
       (Some {| ovlId := 7; isImage := true; dataSource := Some "t1.nii.gz" |})
       [3; 7; 5; 7]%nat 9%nat
     = inr [3; 9; 5; 7]%nat
  /\ exists idx overlayList',
       reloadOverlay
         (Some {| ovlId := 7; isImage := true; dataSource := Some "t1.nii.gz" |})
         [3; 7; 5; 7]%nat 9%nat = inr overlayList'
       /\ nth_error [3; 7; 5; 7]%nat idx = Some 7%nat
       /\ (forall j, (j < idx)%nat -> nth_error [3; 7; 5; 7]%nat j <> Some 7%nat)
       /\ List.length overlayList' = 4%nat
       /\ nth_error overlayList' idx = Some 9%nat
       /\ (forall j, j <> idx ->
             nth_error overlayList' j = nth_error [3; 7; 5; 7]%nat j).
Proof.
  assert (Hin : In 7%nat [3; 7; 5; 7]%nat) by (simpl; tauto).
  split; [reflexivity|]. split; [exact Hin|]. split; [reflexivity|].
  exact (reloadOverlay_in_place
           {| ovlId := 7; isImage := true; dataSource := Some "t1.nii.gz" |}
           [3; 7; 5; 7]%nat 9%nat eq_refl Hin).
Defined.

(** X24: whenever [__selectedOverlayChanged] enables the action, the
    selected overlay is an [Image] with a data source that exists on
    disk, and [__reloadOverlay] does not raise its [RuntimeError]; it
    raises only if the selected overlay is not in the overlay list.
    With no overlay selected, or one that is not an [Image], the action
    is disabled and running it raises [RuntimeError]. *)
Theorem enabled_reload_runs :
  forall fileExists ovl overlayList reloaded,
    (selectedOverlayChanged fileExists ovl = true ->
     (exists o path,
         ovl = Some o /\ isImage o = true /\ dataSource o = Some path
         /\ fileExists path = true)
     /\ reloadOverlay ovl overlayList reloaded <> inl RuntimeError
     /\ (forall o, ovl = Some o -> In (ovlId o) overlayList ->
           exists overlayList',
             reloadOverlay ovl overlayList reloaded = inr overlayList'))
    /\ (ovl = None \/ (exists o, ovl = Some o /\ isImage o = false) ->
        selectedOverlayChanged fileExists ovl = false
        /\ reloadOverlay ovl overlayList reloaded = inl RuntimeError).
Proof.
  intros fileExists ovl overlayList reloaded. split.
  - unfold selectedOverlayChanged. intros Hen.
    destruct ovl as [o|]; [|discriminate].
    destruct (dataSource o) as [path|] eqn:Hds; [|discriminate].
    apply andb_true_iff in Hen. destruct Hen as [Himg Hex].
    split; [exists o, path; repeat split; assumption|].
    split.
    + unfold reloadOverlay. rewrite Himg. cbn [negb].
      destruct (index (ovlId o) overlayList); [|discriminate].
      destruct (remove (ovlId o) overlayList); discriminate.
    + intros o' E Hin. inversion E; subst o'.
      destruct (reloadOverlay_in_place_aux o overlayList reloaded Himg Hin)
        as [l' Hl']. now exists l'.
  - intros [-> | [o [-> Hno]]].
    + split; reflexivity.
    + split.
      * unfold selectedOverlayChanged. destruct (dataSource o); [|reflexivity].
        now rewrite Hno.
      * unfold reloadOverlay. now rewrite Hno.
Qed.

End ReloadOverlay.

(** * Seed-based correlation: [fsleyes/actions/correlate.py] *)

Module Correlate.

(** A Python dictionary from overlays to overlays, as the list of its
    items in insertion order; overlays are named by their identity. *)
Definition Dict : Type := list (nat * nat).

(** [d.get(k, None)]. *)
Fixpoint lookup (d : Dict) (k : nat) : option nat :=
  match d with
  | [] => None
  | (k', v) :: d' => if Nat.eqb k' k then Some v else lookup d' k
  end.

(** [d[k] = v]: the value of an existing key is replaced where it is, a
    new key goes to the end. *)
Fixpoint set (d : Dict) (k v : nat) : Dict :=
  match d with
  | [] => [(k, v)]
  | (k', v') :: d' => if Nat.eqb k' k then (k, v) :: d' else (k', v') :: set d' k v
  end.

(** [d] without the key [k]. *)
Definition drop (d : Dict) (k : nat) : Dict :=
  filter (fun item => negb (Nat.eqb (fst item) k)) d.

(** [d.pop(k)]: [None] stands for the [KeyError] of a missing key. *)
Definition pop (d : Dict) (k : nat) : option (nat * Dict) :=
  match lookup d k with
  | None => None
  | Some v => Some (v, drop d k)
  end.

(** [x in overlayList]. *)
Definition inList (x : nat) (l : list nat) : bool := existsb (Nat.eqb x) l.

(** The overlay list and the two dictionaries of a [CorrelateAction]:
    [correlateOverlays] maps an overlay to its correlation overlay,
    [overlayCorrelates] maps back. *)
Record State : Type := {
  overlayList : list nat;
  correlateOverlays : Dict;
  overlayCorrelates : Dict
}.

Inductive KeyError : Type :=
| MissingKey (k : nat).

(** The loop of [__clearCorrelateOverlays] over [list(items())]: the
    items are a copy, the two dictionaries change as it goes. *)
Fixpoint clearLoop (items : list (nat * nat)) (overlays : list nat)
  (correlates back : Dict) : KeyError + (Dict * Dict) :=
  match items with
  | [] => inr (correlates, back)
  | (overlay, corrOvl) :: items' =>
      if negb (inList overlay overlays) || negb (inList corrOvl overlays) then
        match pop correlates overlay with
        | None => inl (MissingKey overlay)
        | Some (_, correlates') =>
            match pop back corrOvl with
            | None => inl (MissingKey corrOvl)
            | Some (_, back') => clearLoop items' overlays correlates' back'
            end
        end
      else clearLoop items' overlays correlates back
  end.

Definition clearCorrelateOverlays (st : State) : KeyError + State :=
  match clearLoop (correlateOverlays st) (overlayList st)
          (correlateOverlays st) (overlayCorrelates st) with
  | inl e => inl e
  | inr (correlates, back) =>
      inr {| overlayList := overlayList st;
             correlateOverlays := correlates;
             overlayCorrelates := back |}
  end.

(** [__createCorrelateOverlay], on the list and the dictionaries:
    [corrOvl] is the [Image] it creates. *)
Definition createCorrelateOverlay (overlay corrOvl : nat) (st : State) : State :=
  {| overlayList := overlayList st ++ [corrOvl];
     correlateOverlays := set (correlateOverlays st) overlay corrOvl;
     overlayCorrelates := set (overlayCorrelates st) corrOvl overlay |}.

(** The start of [__correlate]: from the selected overlay to the source
    overlay and its correlation overlay, if there is one. *)
Definition resolve (ovl : nat) (st : State) : nat * option nat :=
  match lookup (correlateOverlays st) ovl with
  | Some corrOvl => (ovl, Some corrOvl)
  | None =>
      match lookup (overlayCorrelates st) ovl with
      | Some source => (source, Some ovl)
      | None => (ovl, None)
      end
  end.

(** The two dictionaries are inverse to each other. *)
Definition inverse (correlates back : Dict) : Prop :=
  forall o c, lookup correlates o = Some c <-> lookup back c = Some o.

(** A dictionary holds one item per key. *)
Definition wellFormed (d : Dict) : Prop := NoDup (map fst d).

Definition consistent (st : State) : Prop :=
  wellFormed (correlateOverlays st)
  /\ wellFormed (overlayCorrelates st)
  /\ inverse (correlateOverlays st) (overlayCorrelates st).

Lemma lookup_set d k v k' :
  lookup (set d k v) k' = if Nat.eqb k k' then Some v else lookup d k'.
Proof.
  induction d as [|[a b] d IH]; simpl.
  - reflexivity.
  - destruct (Nat.eqb a k) eqn:Eak; simpl.
    + apply Nat.eqb_eq in Eak. subst a.
      destruct (Nat.eqb k k'); reflexivity.
    + destruct (Nat.eqb a k') eqn:Eak'.
      * apply Nat.eqb_eq in Eak'. subst a.
        apply Nat.eqb_neq in Eak.
        assert (Nat.eqb k k' = false) as -> by (apply Nat.eqb_neq; congruence).
        reflexivity.
      * exact IH.
Qed.

Lemma lookup_drop d k k' :
  lookup (drop d k) k' = if Nat.eqb k k' then None else lookup d k'.
Proof.
  induction d as [|[a b] d IH]; simpl.
  - destruct (Nat.eqb k k'); reflexivity.
  - destruct (Nat.eqb a k) eqn:Eak; simpl.
    + apply Nat.eqb_eq in Eak. subst a. rewrite IH.
      destruct (Nat.eqb k k'); reflexivity.
    + rewrite IH. destruct (Nat.eqb a k') eqn:Eak'; [|reflexivity].
      apply Nat.eqb_eq in Eak'. subst a. apply Nat.eqb_neq in Eak.
      assert (Nat.eqb k k' = false) as -> by (apply Nat.eqb_neq; congruence).
      reflexivity.
Qed.

Lemma lookup_In d k v : lookup d k = Some v -> In (k, v) d.
Proof.
  induction d as [|[a b] d IH]; simpl; [discriminate|].
  destruct (Nat.eqb a k) eqn:E.
  - apply Nat.eqb_eq in E. subst a. intros H. inversion H. now left.
  - intros H. right. now apply IH.
Qed.

Lemma In_lookup d k v : wellFormed d -> In (k, v) d -> lookup d k = Some v.
Proof.
  unfold wellFormed.
  induction d as [|[a b] d IH]; simpl; [intros _ []|].
  intros Hnd Hin. inversion Hnd as [|? ? Hnotin Hnd']; subst.
  destruct Hin as [E|Hin].
  - inversion E; subst. now rewrite Nat.eqb_refl.
  - destruct (Nat.eqb a k) eqn:E.
    + apply Nat.eqb_eq in E. subst a. exfalso. apply Hnotin.
      change k with (fst (k, v)). now apply in_map.
    + now apply IH.
Qed.

Lemma set_keys d k v x :
  In x (map fst (set d k v)) <-> x = k \/ In x (map fst d).
Proof.
  induction d as [|[a b] d IH]; simpl.
  - intuition congruence.
  - destruct (Nat.eqb a k) eqn:E; simpl.
    + apply Nat.eqb_eq in E. subst a. intuition congruence.
    + rewrite IH. intuition congruence.
Qed.

Lemma set_wellFormed d k v : wellFormed d -> wellFormed (set d k v).
Proof.
  unfold wellFormed.
  induction d as [|[a b] d IH]; simpl; intros Hnd.
  - constructor; [intros []|constructor].
  - inversion Hnd as [|? ? Hnotin Hnd']; subst.
    destruct (Nat.eqb a k) eqn:E; simpl.
    + apply Nat.eqb_eq in E. subst a. now constructor.
    + constructor; [|now apply IH].
      rewrite set_keys. intros [H|H]; [|contradiction].
      apply Nat.eqb_neq in E. congruence.
Qed.

Lemma drop_wellFormed d k : wellFormed d -> wellFormed (drop d k).
Proof.
  unfold wellFormed, drop.
  induction d as [|[a b] d IH]; simpl; intros Hnd; [constructor|].
  inversion Hnd as [|? ? Hnotin Hnd']; subst.
  destruct (negb (Nat.eqb a k)); simpl; [|now apply IH].
  constructor; [|now apply IH].
  intros H. apply Hnotin. apply in_map_iff in H.
  destruct H as [[x y] [E Hin]]. apply filter_In in Hin. destruct Hin as [Hin _].
  simpl in E. subst x. change a with (fst (a, y)). now apply in_map.
Qed.

Lemma inList_In x l : inList x l = true <-> In x l.
Proof.
  unfold inList. rewrite existsb_exists. split.
  - intros [y [Hy E]]. apply Nat.eqb_eq in E. now subst y.
  - intros H. exists x. split; [exact H|apply Nat.eqb_refl].
Qed.

(** Dropping a pair from both dictionaries keeps them inverse. *)
Lemma inverse_drop correlates back o c :
  inverse correlates back ->
  lookup correlates o = Some c ->
  inverse (drop correlates o) (drop back c).
Proof.
  intros Hinv Hoc o' c'. rewrite !lookup_drop.
  destruct (Nat.eqb o o') eqn:Eo, (Nat.eqb c c') eqn:Ec.
  - split; discriminate.
  - apply Nat.eqb_eq in Eo. subst o'. apply Nat.eqb_neq in Ec.
    split; [discriminate|]. intros H. apply Hinv in H. congruence.
  - apply Nat.eqb_eq in Ec. subst c'. apply Nat.eqb_neq in Eo.
    split; [|discriminate]. intros H.
    apply Hinv in H. apply Hinv in Hoc. congruence.
  - apply Hinv.
Qed.

(** The loop keeps the dictionaries inverse and removes exactly the
    visited pairs that have a member outside the overlay list. *)
Lemma clearLoop_spec overlays :
  forall items correlates back,
    wellFormed correlates -> wellFormed back -> inverse correlates back ->
    NoDup (map fst items) ->
    (forall o c, In (o, c) items -> lookup correlates o = Some c) ->
    exists correlates' back',
      clearLoop items overlays correlates back = inr (correlates', back')
      /\ wellFormed correlates' /\ wellFormed back'
      /\ inverse correlates' back'
      /\ (forall o c,
            lookup correlates' o = Some c <->
            lookup correlates o = Some c
            /\ (In o (map fst items) -> In o overlays /\ In c overlays)).
Proof.
  induction items as [|[o0 c0] items IH];
    intros correlates back Hwc Hwb Hinv Hnd Hitems.
  - exists correlates, back.
    split; [reflexivity|]. split; [exact Hwc|]. split; [exact Hwb|].
    split; [exact Hinv|]. intros o c. split.
    + intros H. split; [exact H|intros []].
    + intros [H _]. exact H.
  - inversion Hnd as [|? ? Hfresh Hnd']; subst.
    assert (H0 : lookup correlates o0 = Some c0) by (apply Hitems; now left).
    cbn [clearLoop].
    destruct (negb (inList o0 overlays) || negb (inList c0 overlays)) eqn:Egone.
    + assert (Hb0 : lookup back c0 = Some o0) by now apply Hinv.
      unfold pop. rewrite H0, Hb0.
      destruct (IH (drop correlates o0) (drop back c0))
        as [cs [bs [Hrun [Hw1 [Hw2 [Hi Hlook]]]]]].
      * now apply drop_wellFormed.
      * now apply drop_wellFormed.
      * now apply inverse_drop.
      * exact Hnd'.
      * intros o c Hin. rewrite lookup_drop.
        destruct (Nat.eqb o0 o) eqn:E.
        -- apply Nat.eqb_eq in E. subst o. exfalso. apply Hfresh.
           change o0 with (fst (o0, c)). now apply in_map.
        -- apply Hitems. now right.
      * exists cs, bs.
        split; [exact Hrun|]. split; [exact Hw1|]. split; [exact Hw2|].
        split; [exact Hi|]. intros o c. split.
        -- intros H. apply Hlook in H. destruct H as [H Hin].
           rewrite lookup_drop in H.
           destruct (Nat.eqb o0 o) eqn:E; [discriminate|].
           split; [exact H|]. intros [Hhd|Htl].
           ++ simpl in Hhd. apply Nat.eqb_neq in E. contradiction.
           ++ now apply Hin.
        -- intros [Hoc Hkeep]. apply Hlook. rewrite lookup_drop.
           destruct (Nat.eqb o0 o) eqn:E.
           ++ exfalso. apply Nat.eqb_eq in E. subst o.
              assert (c = c0) by congruence. subst c.
              destruct (Hkeep (or_introl eq_refl)) as [Ho Hc].
              apply inList_In in Ho, Hc. rewrite Ho, Hc in Egone. discriminate.
           ++ split; [exact Hoc|]. intros Hin. apply Hkeep. now right.
    + apply orb_false_iff in Egone. destruct Egone as [Eo Ec].
      apply negb_false_iff, inList_In in Eo.
      apply negb_false_iff, inList_In in Ec.
      destruct (IH correlates back Hwc Hwb Hinv Hnd')
        as [cs [bs [Hrun [Hw1 [Hw2 [Hi Hlook]]]]]].
      * intros o c Hin. apply Hitems. now right.
      * exists cs, bs.
        split; [exact Hrun|]. split; [exact Hw1|]. split; [exact Hw2|].
        split; [exact Hi|]. intros o c. split.
        -- intros H. apply Hlook in H. destruct H as [H Hin].
           split; [exact H|]. intros [Hhd|Htl].
           ++ simpl in Hhd. subst o.
              assert (c = c0) by congruence. subst c. now split.
           ++ now apply Hin.
        -- intros [Hoc Hkeep]. apply Hlook. split; [exact Hoc|].
           intros Hin. apply Hkeep. now right.
Qed.

Lemma inverse_set correlates back overlay corrOvl :
  inverse correlates back ->
  lookup correlates overlay = None ->
  lookup back corrOvl = None ->
  inverse (set correlates overlay corrOvl) (set back corrOvl overlay).
Proof.
  intros Hinv Ho Hc o c. rewrite !lookup_set.
  destruct (Nat.eqb overlay o) eqn:Eo, (Nat.eqb corrOvl c) eqn:Ec.
  - apply Nat.eqb_eq in Eo, Ec. subst. split; reflexivity.
  - apply Nat.eqb_eq in Eo. subst o. apply Nat.eqb_neq in Ec. split.
    + intros H. congruence.
    + intros H. apply Hinv in H. congruence.
  - apply Nat.eqb_eq in Ec. subst c. apply Nat.eqb_neq in Eo. split.
    + intros H. apply Hinv in H. congruence.
    + intros H. congruence.
  - apply Hinv.
Qed.

(** X25: with the two dictionaries inverse to each other,
    [__clearCorrelateOverlays] never raises [KeyError].  It leaves the
    overlay list alone, keeps exactly the pairs whose source overlay and
    correlation overlay are both still in the overlay list, and the
    dictionaries are inverse to each other afterwards. *)
Theorem clearCorrelateOverlays_keeps_pairs :
  forall st,
    consistent st ->
    exists st',
      clearCorrelateOverlays st = inr st'
      /\ consistent st'
      /\ overlayList st' = overlayList st
      /\ (forall o c,
            lookup (correlateOverlays st') o = Some c <->
            lookup (correlateOverlays st) o = Some c
            /\ In o (overlayList st) /\ In c (overlayList st))
      /\ (forall o c,
            lookup (overlayCorrelates st') c = Some o <->
            lookup (overlayCorrelates st) c = Some o
            /\ In o (overlayList st) /\ In c (overlayList st)).
Proof.
  intros st [Hwc [Hwb Hinv]].
  destruct (clearLoop_spec (overlayList st) (correlateOverlays st)
              (correlateOverlays st) (overlayCorrelates st) Hwc Hwb Hinv Hwc)
    as [cs [bs [Hrun [Hw1 [Hw2 [Hi Hlook]]]]]].
  { intros o c Hin. now apply In_lookup. }
  assert (Hpairs : forall o c,
             lookup cs o = Some c <->
             lookup (correlateOverlays st) o = Some c
             /\ In o (overlayList st) /\ In c (overlayList st)).
  { intros o c. rewrite Hlook. split.
    - intros [H Hin]. split; [exact H|]. apply Hin.
      apply lookup_In in H. change o with (fst (o, c)). now apply in_map.
    - intros [H Hin]. split; [exact H|]. intros _. exact Hin. }
  exists {| overlayList := overlayList st;
            correlateOverlays := cs; overlayCorrelates := bs |}.
  split; [unfold clearCorrelateOverlays; now rewrite Hrun|].
  split; [split; [exact Hw1|split; [exact Hw2|exact Hi]]|].
  split; [reflexivity|]. split; [exact Hpairs|].
  intros o c. cbn [overlayCorrelates]. rewrite <- (Hi o c), <- (Hinv o c).
  apply Hpairs.
Qed.

Lemma clearCorrelateOverlays_keeps_pairs_witness :
  consistent {| overlayList := [1; 2; 3]%nat;
                correlateOverlays := [(1, 2); (3, 4)]%nat;
                overlayCorrelates := [(2, 1); (4, 3)]%nat |}
  /\ clearCorrelateOverlays
       {| overlayList := [1; 2; 3]%nat;
          correlateOverlays := [(1, 2); (3, 4)]%nat;
          overlayCorrelates := [(2, 1); (4, 3)]%nat |}
     = inr {| overlayList := [1; 2; 3]%nat;
              correlateOverlays := [(1, 2)]%nat;
              overlayCorrelates := [(2, 1)]%nat |}
  /\ exists st',
       clearCorrelateOverlays
         {| overlayList := [1; 2; 3]%nat;
            correlateOverlays := [(1, 2); (3, 4)]%nat;
            overlayCorrelates := [(2, 1); (4, 3)]%nat |} = inr st'
       /\ consistent st'.
Proof.
  assert (H : consistent {| overlayList := [1; 2; 3]%nat;
                            correlateOverlays := [(1, 2); (3, 4)]%nat;
                            overlayCorrelates := [(2, 1); (4, 3)]%nat |}).
  { split; [|split].
    - repeat constructor; simpl; intuition discriminate.
    - repeat constructor; simpl; intuition discriminate.
    - intros o c. cbn [correlateOverlays overlayCorrelates lookup].
      destruct (Nat.eqb 1 o) eqn:E1; [apply Nat.eqb_eq in E1; subst o|].
      + destruct (Nat.eqb 2 c) eqn:E2; [apply Nat.eqb_eq in E2; subst c; tauto|].
        apply Nat.eqb_neq in E2.
        destruct (Nat.eqb 4 c) eqn:E4;
          [apply Nat.eqb_eq in E4; subst c|]; split; congruence.
      + apply Nat.eqb_neq in E1.
        destruct (Nat.eqb 3 o) eqn:E3; [apply Nat.eqb_eq in E3; subst o|].
        * destruct (Nat.eqb 2 c) eqn:E2; [apply Nat.eqb_eq in E2; subst c|];
            [split; congruence|].
          destruct (Nat.eqb 4 c) eqn:E4;
            [apply Nat.eqb_eq in E4; subst c; tauto|].
          apply Nat.eqb_neq in E4. split; congruence.
        * apply Nat.eqb_neq in E3.
          destruct (Nat.eqb 2 c); [split; congruence|].
          destruct (Nat.eqb 4 c); split; congruence. }
  split; [exact H|]. split; [reflexivity|].
  destruct (clearCorrelateOverlays_keeps_pairs _ H) as [st' [Hrun [Hc _]]].
  exists st'. split; [exact Hrun|exact Hc].
Defined.

(** X26: [__createCorrelateOverlay] for an overlay that has no
    correlation overlay yet, with the newly created image not yet a key
    of [overlayCorrelates], appends the image to the overlay list,
    registers the pair in both directions, leaves every other pair as
    it was, and keeps the dictionaries inverse to each other. *)
Theorem createCorrelateOverlay_registers :
  forall overlay corrOvl st,
    consistent st ->
    lookup (correlateOverlays st) overlay = None ->
    lookup (overlayCorrelates st) corrOvl = None ->
    let st' := createCorrelateOverlay overlay corrOvl st in
    consistent st'
    /\ overlayList st' = overlayList st ++ [corrOvl]
    /\ lookup (correlateOverlays st') overlay = Some corrOvl
    /\ lookup (overlayCorrelates st') corrOvl = Some overlay
    /\ (forall o, o <> overlay ->
          lookup (correlateOverlays st') o = lookup (correlateOverlays st) o)
    /\ (forall c, c <> corrOvl ->
          lookup (overlayCorrelates st') c = lookup (overlayCorrelates st) c).
Proof.
  intros overlay corrOvl st [Hwc [Hwb Hinv]] Ho Hc. cbn zeta.
  unfold createCorrelateOverlay.
  cbn [overlayList correlateOverlays overlayCorrelates].
  split.
  - split; [now apply set_wellFormed|]. split; [now apply set_wellFormed|].
    now apply inverse_set.
  - split; [reflexivity|]. rewrite !lookup_set, !Nat.eqb_refl.
    split; [reflexivity|]. split; [reflexivity|]. split.
    + intros o Hne. rewrite lookup_set.
      destruct (Nat.eqb overlay o) eqn:E; [|reflexivity].
      apply Nat.eqb_eq in E. congruence.
    + intros c Hne. rewrite lookup_set.
      destruct (Nat.eqb corrOvl c) eqn:E; [|reflexivity].
      apply Nat.eqb_eq in E. congruence.
Qed.

Lemma createCorrelateOverlay_registers_witness :
  consistent {| overlayList := [1]%nat; correlateOverlays := [];
                overlayCorrelates := [] |}
  /\ createCorrelateOverlay 1 2
       {| overlayList := [1]%nat; correlateOverlays := []; overlayCorrelates := [] |}
     = {| overlayList := [1; 2]%nat; correlateOverlays := [(1, 2)]%nat;
          overlayCorrelates := [(2, 1)]%nat |}
  /\ consistent
       (createCorrelateOverlay 1 2
          {| overlayList := [1]%nat; correlateOverlays := [];
             overlayCorrelates := [] |}).
Proof.
  assert (H : consistent {| overlayList := [1]%nat; correlateOverlays := [];
                            overlayCorrelates := [] |}).
  { split; [constructor|]. split; [constructor|].
    intros o c. split; discriminate. }
  split; [exact H|]. split; [reflexivity|].
  exact (proj1 (createCorrelateOverlay_registers 1 2 _ H eq_refl eq_refl)).
Defined.

(** X27: with the two dictionaries inverse to each other, the pair
    [__correlate] works on is a registered pair that contains the
    selected overlay, whether the selected overlay is the source or the
    correlation overlay; when it finds no correlation overlay, the
    selected overlay is in neither dictionary, so that creating a
    correlation overlay for it keeps the dictionaries inverse to each
    other. *)
Theorem resolve_finds_pair :
  forall ovl st,
    consistent st ->
    match resolve ovl st with
    | (source, Some corrOvl) =>
        lookup (correlateOverlays st) source = Some corrOvl
        /\ lookup (overlayCorrelates st) corrOvl = Some source
        /\ (ovl = source \/ ovl = corrOvl)
    | (source, None) =>
        source = ovl
        /\ lookup (correlateOverlays st) ovl = None
        /\ lookup (overlayCorrelates st) ovl = None
        /\ (forall created,
              lookup (overlayCorrelates st) created = None ->
              consistent (createCorrelateOverlay source created st))
    end.
Proof.
  intros ovl st Hcons. pose proof Hcons as [Hwc [Hwb Hinv]]. unfold resolve.
  destruct (lookup (correlateOverlays st) ovl) as [c|] eqn:Ec; cbn iota beta;
    [|destruct (lookup (overlayCorrelates st) ovl) as [s|] eqn:Es; cbn iota beta].
  - split; [first [exact Ec|reflexivity]|]. split; [now apply Hinv|now left].
  - split; [now apply Hinv|]. split; [first [exact Es|reflexivity]|now right].
  - split; [reflexivity|]. split; [first [exact Ec|reflexivity]|].
    split; [first [exact Es|reflexivity]|].
    intros created Hnew. unfold createCorrelateOverlay.
    split; [now apply set_wellFormed|]. split; [now apply set_wellFormed|].
    now apply inverse_set.
Qed.

Lemma resolve_finds_pair_witness :
  consistent {| overlayList := [1; 2]%nat; correlateOverlays := [(1, 2)]%nat;
                overlayCorrelates := [(2, 1)]%nat |}
  /\ resolve 2 {| overlayList := [1; 2]%nat; correlateOverlays := [(1, 2)]%nat;
                  overlayCorrelates := [(2, 1)]%nat |} = (1%nat, Some 2%nat)
  /\ lookup [(1, 2)]%nat 1 = Some 2%nat
  /\ lookup [(2, 1)]%nat 2 = Some 1%nat
  /\ (2 = 1 \/ 2 = 2)%nat.
Proof.
  assert (H : consistent
                (createCorrelateOverlay 1 2
                   {| overlayList := [1]%nat; correlateOverlays := [];
                      overlayCorrelates := [] |})).
  { split; [|split].
    - repeat constructor; simpl; tauto.
    - repeat constructor; simpl; tauto.
    - apply inverse_set; [|reflexivity|reflexivity].
      intros o c. split; discriminate. }
  split; [exact H|]. split; [reflexivity|].
  exact (resolve_finds_pair 2 _ H).
Defined.

End Correlate.

(** * Off-screen rendering: the arguments of [fsleyes/render.py] *)

Module RenderArgs.

(** The two fields of the parsed namespace that [parseArgs] and [main]
    test; both may be [None]. *)
Record Namespace : Type := {
  outfile : option string;
  scene : option string
}.

(** [sys.exit(status)]. *)
Inductive Exit : Type :=
| SysExit (status : Z).

(** [parseArgs], from the namespace that [fsleyes.parseargs.parseArgs]
    returns: without an output file the program exits with status 1, a
    scene that is neither 'ortho' nor 'lightbox' becomes 'ortho'. *)
Definition parseArgs (namespace : Namespace) : Exit + Namespace :=
  match outfile namespace with
  | None => inl (SysExit 1)
  | Some _ =>
      let known :=
        match scene namespace with
        | Some s => existsb (String.eqb s) ["ortho"; "lightbox"]
        | None => false
        end in
      if negb known then
        inr {| outfile := outfile namespace; scene := Some "ortho" |}
      else inr namespace
  end.

(** The scene options [main] creates. *)
Inductive SceneOpts : Type :=
| OrthoOpts
| LightBoxOpts.

(** [main]: [sceneOpts] is assigned by an [if]/[elif] on the scene;
    [None] when neither branch is taken. *)
Definition sceneOptsOf (namespace : Namespace) : option SceneOpts :=
  match scene namespace with
  | Some s =>
      if String.eqb s "ortho" then Some OrthoOpts
      else if String.eqb s "lightbox" then Some LightBoxOpts
      else None
  | None => None
  end.

(** X28: [parseArgs] exits with status 1 exactly when no output file is
    given.  Otherwise the namespace it returns has the output file it
    was given and a scene that is 'ortho' or 'lightbox': 'lightbox' only
    if that was requested, 'ortho' in every other case; so [main]
    always gets its scene options, and its final test for an output
    file never fails. *)
Theorem parseArgs_namespace :
  forall namespace,
    (parseArgs namespace = inl (SysExit 1) <-> outfile namespace = None)
    /\ (forall parsed,
          parseArgs namespace = inr parsed ->
          outfile parsed = outfile namespace
          /\ outfile parsed <> None
          /\ scene parsed
             = (if match scene namespace with
                   | Some s => String.eqb s "lightbox"
                   | None => false
                   end
                then Some "lightbox" else Some "ortho")
          /\ (exists opts, sceneOptsOf parsed = Some opts)
          /\ parseArgs parsed = inr parsed).
Proof.
  intros [out sc]. unfold parseArgs. cbn [outfile scene]. split.
  - destruct out; split; intros H; try reflexivity; try discriminate.
    destruct (negb _); discriminate.
  - intros parsed Hp. destruct out as [path|]; [|discriminate].
    destruct sc as [s|]; cbn [existsb orb negb] in Hp.
    + destruct (String.eqb s "ortho") eqn:Eo;
        [|destruct (String.eqb s "lightbox") eqn:El];
        cbn in Hp; inversion Hp; subst parsed; clear Hp; cbn [outfile scene].
      * apply String.eqb_eq in Eo. subst s.
        split; [reflexivity|]. split; [discriminate|]. split; [reflexivity|].
        split; [now exists OrthoOpts|reflexivity].
      * apply String.eqb_eq in El. subst s.
        split; [reflexivity|]. split; [discriminate|]. split; [reflexivity|].
        split; [now exists LightBoxOpts|reflexivity].
      * split; [reflexivity|]. split; [discriminate|]. split; [reflexivity|].
        split; [now exists OrthoOpts|reflexivity].
    + cbn in Hp. inversion Hp; subst parsed; clear Hp. cbn [outfile scene].
      split; [reflexivity|]. split; [discriminate|]. split; [reflexivity|].
      split; [now exists OrthoOpts|reflexivity].
Qed.

End RenderArgs.

(** * The initial colour of a mesh: [genMeshColour] of [meshopts.py] *)

Module MeshColour.

Local Open Scope Z_scope.

(** [needle in hay] for two strings. *)
Fixpoint contains (needle hay : string) : bool :=
  if String.prefix needle hay then true
  else
    match hay with
    | EmptyString => false
    | String _ rest => contains needle rest
    end.

(** The colour [genMeshColour] returns: the colour of a label of the
    'freesurfercolorlut' lookup table, or a random bright colour. *)
Inductive Colour : Type :=
| LutColour (label : Z)
| RandomBrightColour.

Definition genMeshColour (filename : string) : Colour :=
  if contains "L_Thal" filename then LutColour 10
  else if contains "L_Caud" filename then LutColour 11
  else if contains "L_Puta" filename then LutColour 12
  else if contains "L_Pall" filename then LutColour 13
  else if contains "BrStem" filename then LutColour 16
  else if contains "L_Hipp" filename then LutColour 17
  else if contains "L_Amyg" filename then LutColour 18
  else if contains "L_Accu" filename then LutColour 26
  else if contains "R_Thal" filename then LutColour 49
  else if contains "R_Caud" filename then LutColour 50
  else if contains "R_Puta" filename then LutColour 51
  else if contains "R_Pall" filename then LutColour 52
  else if contains "R_Hipp" filename then LutColour 53
  else if contains "R_Amyg" filename then LutColour 54
  else if contains "R_Accu" filename then LutColour 58
  else RandomBrightColour.

(** The structure names the function looks for, in its order. *)
Definition markers : list string :=
  [ "L_Thal"; "L_Caud"; "L_Puta"; "L_Pall"; "BrStem"; "L_Hipp"; "L_Amyg"; "L_Accu";
    "R_Thal"; "R_Caud"; "R_Puta"; "R_Pall"; "R_Hipp"; "R_Amyg"; "R_Accu" ]%string.

(** The file name names the structure [m] and no other one. *)
Definition namesOnly (m filename : string) : Prop :=
  forall m', In m' markers -> (contains m' filename = true <-> m' = m).

Lemma namesOnly_contains m filename :
  namesOnly m filename ->
  forall m', In m' markers -> contains m' filename = String.eqb m' m.
Proof.
  intros Honly m' Hin. destruct (String.eqb m' m) eqn:E.
  - apply String.eqb_eq in E. now apply Honly.
  - apply not_true_iff_false. intros Hc. apply Honly in Hc; [|exact Hin].
    apply String.eqb_neq in E. contradiction.
Qed.

(** The colour for a file name that names one structure, by the
    position of the structure among the markers. *)
Definition labelOf (m : string) : Colour :=
  genMeshColour m.

Lemma genMeshColour_named m filename :
  In m markers -> namesOnly m filename -> genMeshColour filename = labelOf m.
Proof.
  intros Hin Honly.
  pose proof (namesOnly_contains m filename Honly) as Hc.
  unfold genMeshColour at 1.
  rewrite (Hc "L_Thal"%string), (Hc "L_Caud"%string), (Hc "L_Puta"%string),
    (Hc "L_Pall"%string), (Hc "BrStem"%string), (Hc "L_Hipp"%string),
    (Hc "L_Amyg"%string), (Hc "L_Accu"%string), (Hc "R_Thal"%string),
    (Hc "R_Caud"%string), (Hc "R_Puta"%string), (Hc "R_Pall"%string),
    (Hc "R_Hipp"%string), (Hc "R_Amyg"%string), (Hc "R_Accu"%string)
    by (simpl; tauto).
  simpl in Hin.
  repeat (destruct Hin as [<-|Hin]; [vm_compute; reflexivity|]).
  destruct Hin.
Qed.

(** X29: [genMeshColour] returns a random colour exactly when the file
    name contains none of the fifteen FIRST structure names.  A file
    name that contains exactly one of them gets a colour of the lookup
    table, and two file names that name two different structures get
    the colours of two different labels. *)
Theorem genMeshColour_structures :
  (forall filename,
      genMeshColour filename = RandomBrightColour
      <-> (forall m, In m markers -> contains m filename = false))
  /\ (forall m1 m2 file1 file2,
        In m1 markers -> In m2 markers -> m1 <> m2 ->
        namesOnly m1 file1 -> namesOnly m2 file2 ->
        exists label1 label2,
          genMeshColour file1 = LutColour label1
          /\ genMeshColour file2 = LutColour label2
          /\ label1 <> label2).
Proof.
  split.
  - intros filename. split.
    + intros Hrandom m Hin. unfold genMeshColour in Hrandom. simpl in Hin.
      repeat match type of Hrandom with
             | (if contains ?s filename then _ else _) = _ =>
                 destruct (contains s filename) eqn:?; [discriminate Hrandom|]
             end.
      repeat (destruct Hin as [<-|Hin]; [assumption|]). destruct Hin.
    + intros Hnone. unfold genMeshColour.
      rewrite !Hnone by (simpl; tauto). reflexivity.
  - intros m1 m2 file1 file2 H1 H2 Hne Hf1 Hf2.
    rewrite (genMeshColour_named m1 file1 H1 Hf1).
    rewrite (genMeshColour_named m2 file2 H2 Hf2).
    assert (Hall : forallb (fun a => forallb (fun b =>
                match labelOf a, labelOf b with
                | LutColour x, LutColour y => String.eqb a b || negb (x =? y)
                | _, _ => false
                end) markers) markers = true) by (vm_compute; reflexivity).
    rewrite forallb_forall in Hall. specialize (Hall _ H1). cbn beta in Hall.
    rewrite forallb_forall in Hall. specialize (Hall _ H2). cbn beta in Hall.
    destruct (labelOf m1) as [x|]; [|discriminate].
    destruct (labelOf m2) as [y|]; [|discriminate].
    exists x, y. split; [reflexivity|]. split; [reflexivity|].
    apply orb_true_iff in Hall. destruct Hall as [E|E].
    + apply String.eqb_eq in E. contradiction.
    + apply negb_true_iff, Z.eqb_neq in E. exact E.
Qed.

Lemma genMeshColour_structures_witness :
  In "L_Hipp"%string markers /\ In "R_Hipp"%string markers
  /\ "L_Hipp"%string <> "R_Hipp"%string
  /\ namesOnly "L_Hipp" "sub01-L_Hipp_first.vtk"
  /\ namesOnly "R_Hipp" "sub01-R_Hipp_first.vtk"
  /\ genMeshColour "sub01-L_Hipp_first.vtk" = LutColour 17
  /\ genMeshColour "sub01-R_Hipp_first.vtk" = LutColour 53
  /\ exists label1 label2,
       genMeshColour "sub01-L_Hipp_first.vtk" = LutColour label1
       /\ genMeshColour "sub01-R_Hipp_first.vtk" = LutColour label2
       /\ label1 <> label2.
Proof.
  assert (H1 : In "L_Hipp"%string markers) by (simpl; tauto).
  assert (H2 : In "R_Hipp"%string markers) by (simpl; tauto).
  assert (Hne : "L_Hipp"%string <> "R_Hipp"%string) by discriminate.
  assert (N1 : namesOnly "L_Hipp" "sub01-L_Hipp_first.vtk").
  { intros m' Hin. simpl in Hin.
    repeat (destruct Hin as [<-|Hin];
            [vm_compute; split; intros H; (reflexivity || discriminate H)|]).
    destruct Hin. }
  assert (N2 : namesOnly "R_Hipp" "sub01-R_Hipp_first.vtk").
  { intros m' Hin. simpl in Hin.
    repeat (destruct Hin as [<-|Hin];
            [vm_compute; split; intros H; (reflexivity || discriminate H)|]).
    destruct Hin. }
  split; [exact H1|]. split; [exact H2|]. split; [exact Hne|].
  split; [exact N1|]. split; [exact N2|].
  split; [reflexivity|]. split; [reflexivity|].
  exact (proj2 genMeshColour_structures "L_Hipp"%string "R_Hipp"%string
           "sub01-L_Hipp_first.vtk"%string "sub01-R_Hipp_first.vtk"%string
           H1 H2 Hne N1 N2).
Defined.

End MeshColour.

(** * Worked instances *)

(** Three canvases side by side with labels, 800 by 600: the canvases
    get 680 by 560. *)
Lemma calculateOrthoCanvasSizes_error_witness :
  Render.calculateOrthoCanvasSizes (fun _ _ (_ : list unit) w h => (w, h)) []
    800 600 [(1, 2); (0, 2); (0, 1)]%Z true "horizontal"
  <> inl Render.ValueError
  /\ Render.calculateOrthoCanvasSizes (fun _ _ (_ : list unit) w h => (w, h)) []
       800 600 [(1, 2); (0, 2); (0, 1)]%Z true "horizontal"
     = inr (680, 560)%Z
  /\ exists w h,
       Render.calculateOrthoCanvasSizes (fun _ _ (_ : list unit) w h => (w, h)) []
         800 600 [(1, 2); (0, 2); (0, 1)]%Z true "horizontal"
       = inr (w, h)
       /\ (w <= 800)%Z /\ (h <= 600)%Z
       /\ (true = false -> w = 800%Z /\ h = 600%Z).
Proof.
  assert (H : Render.calculateOrthoCanvasSizes
                (fun _ _ (_ : list unit) w h => (w, h)) []
                800 600 [(1, 2); (0, 2); (0, 1)]%Z true "horizontal"
              <> inl Render.ValueError) by discriminate.
  split; [exact H|]. split; [reflexivity|].
  exact (proj2 (Render.calculateOrthoCanvasSizes_error unit (Z * Z)
                  (fun _ _ _ w h => (w, h)) [] 800 600
                  [(1, 2); (0, 2); (0, 1)]%Z true "horizontal") H).
Defined.

(** Clipping by a vertex data set while colouring by an image. *)
Lemma clipping_data_differs_witness :
  TractogramOpts.getClippingRange ["fa"]
    {| TractogramOpts.colourMode := TractogramOpts.ImageMode 1;
       TractogramOpts.clipMode := TractogramOpts.Named "fa";
       TractogramOpts.colourChoices := [];
       TractogramOpts.clipChoices := [] |}
  = Some (TractogramOpts.MinMax (TractogramOpts.VertexData "fa"))
  /\ exists data,
       TractogramOpts.MinMax (TractogramOpts.VertexData "fa")
       = TractogramOpts.MinMax data
       /\ TractogramOpts.getData ["fa"] (TractogramOpts.Named "fa") = Some data
       /\ TractogramOpts.Named "fa" <> TractogramOpts.NoMode
       /\ TractogramOpts.Named "fa" <> TractogramOpts.ImageMode 1
       /\ TractogramOpts.getData ["fa"] (TractogramOpts.ImageMode 1) <> Some data.
Proof.
  split; [reflexivity|].
  exact (proj1 (TractogramOpts.clipping_data_differs ["fa"]
                  {| TractogramOpts.colourMode := TractogramOpts.ImageMode 1;
                     TractogramOpts.clipMode := TractogramOpts.Named "fa";
                     TractogramOpts.colourChoices := [];
                     TractogramOpts.clipChoices := [] |})
           (TractogramOpts.MinMax (TractogramOpts.VertexData "fa")) eq_refl).
Defined.

(** An image on disk is selected and in the list: the action is enabled
    and the reload goes through. *)
Lemma enabled_reload_runs_witness :
  ReloadOverlay.selectedOverlayChanged (fun _ => true)
    (Some {| ReloadOverlay.ovlId := 7; ReloadOverlay.isImage := true;
             ReloadOverlay.dataSource := Some "t1.nii.gz" |}) = true
  /\ ReloadOverlay.reloadOverlay
       (Some {| ReloadOverlay.ovlId := 7; ReloadOverlay.isImage := true;
                ReloadOverlay.dataSource := Some "t1.nii.gz" |})
       [3; 7]%nat 9%nat
     <> inl ReloadOverlay.RuntimeError.
Proof.
  assert (H : ReloadOverlay.selectedOverlayChanged (fun _ => true)
                (Some {| ReloadOverlay.ovlId := 7; ReloadOverlay.isImage := true;
                         ReloadOverlay.dataSource := Some "t1.nii.gz" |}) = true)
    by reflexivity.
  split; [exact H|].
  exact (proj1 (proj2 (proj1 (ReloadOverlay.enabled_reload_runs (fun _ => true)
           (Some {| ReloadOverlay.ovlId := 7; ReloadOverlay.isImage := true;
                    ReloadOverlay.dataSource := Some "t1.nii.gz" |})
           [3; 7]%nat 9%nat) H))).
Defined.
